(** * hype_funding_tracker: the funding-rate aggregation pipeline

    A shallow embedding of [hype_funding_tracker.py]: the catalog fetch
    ([get_all_perp_assets]), the paginated history fetch with retry
    ([fetch_funding_history]), the per-symbol wrapper ([fetch_coin_data]),
    the statistics ([calculate_stats]) and the sequential loop of [main].

    Conventions of the embedding.
    - Python [float] is IEEE binary64: Rocq's primitive [float], whose
      operations are the same correctly rounded ones.
    - Python [int] is [Z].
    - The outside world (HTTP endpoint, wall clock, [time.sleep]) is a trace
      of events; the endpoint and the clock are arbitrary functions of the
      trace so far, so that every statement quantifies over every upstream
      behaviour.
    - JSON documents are seen through the accesses the program performs on
      them; an access that raises in Python is [None] here, and every
      [try]/[except] of the source is a [match] on it. *)

From Stdlib Require Import ZArith List Floats QArith Lia Lqa Permutation Sorted.
From stdpp Require Import gmap strings.
Import ListNotations.

Open Scope Z_scope.

(** ** Numbers *)

(** Python converts an [int] operand of a mixed [int]/[float] operation to
    [float]; the integers converted by the tracker are the window lengths in
    milliseconds and a list length (below 2^63). *)
Definition float_of_Z (z : Z) : float := PrimFloat.of_uint63 (Uint63.of_Z z).

(** [int >= float] in Python compares the exact values: no rounding of the
    integer. [nan] compares false with everything. *)
Definition Z_geb_float (z : Z) (f : float) : bool :=
  match Prim2SF f with
  | S754_nan => false
  | S754_infinity s => s
  | S754_zero _ => 0 <=? z
  | S754_finite s m e =>
      let v := if s then Z.neg m else Z.pos m in
      if 0 <=? e then v * 2 ^ e <=? z else v <=? z * 2 ^ (- e)
  end.

(** The builtin [sum] on floats: the items are added one by one, from left
    to right, to a float accumulator that starts at zero (the loop of
    CPython's [sum] up to 3.11; from 3.12 on the builtin carries an
    error-compensation term, under which the sum of three tenths used as a
    sample below is the same number). *)
Definition py_sum (xs : list float) : float :=
  fold_left PrimFloat.add xs 0%float.

(** The builtins [max] and [min] keep the first extremal item: the running
    result is replaced only when [item > result] (resp. [item < result]). *)
Definition py_max (x : float) (xs : list float) : float :=
  fold_left (fun m item => if (m <? item)%float then item else m) xs x.

Definition py_min (x : float) (xs : list float) : float :=
  fold_left (fun m item => if (item <? m)%float then item else m) xs x.

(** ** Data model *)

(** One element of a [fundingHistory] page, as the tracker reads it:
    [time] is [d['time']] and [fundingRate] is [float(d['fundingRate'])].
    [None] stands for an access that raises: the element is not an object,
    the key is absent, the rate is not convertible by [float]. Timestamps are
    integers, the milliseconds the endpoint sends (a JSON boolean is the
    integer 0 or 1 to Python). A [time] that is null, a string, an array or
    an object makes the computations that use it raise (the comparison with
    the bound of a window, the cursor [last_time + 1]) and is [None] too. A
    [time] that is a JSON number with a fraction or an exponent, which
    Python reads as a float and the tracker compares and adds like an
    integer, has no row here: the model says nothing of it. *)
Record row := mkRow {
  time : option Z;
  fundingRate : option float
}.

(** A well-formed funding observation. *)
Record observation := mkObs {
  obs_time : Z;
  obs_rate : float
}.

Definition row_of (o : observation) : row :=
  mkRow (Some (obs_time o)) (Some (obs_rate o)).

Module Stats.
(** The dictionary returned by [calculate_stats]. *)
Record t := mk {
  rate8h : float;
  sum1d : float;
  sum3d : float;
  sum7d : float;
  sum30d : float;
  avg : float;
  max : float;
  min : float;
  count : nat
}.
End Stats.

(** ** The outside world *)

Inductive request :=
| MetaAndAssetCtxs (dex : option string)
| FundingHistory (coin : string) (startTime : Z) (endTime : option Z).

Inductive event :=
| Post (r : request)      (* requests.post(API_URL, json=r, timeout=15) *)
| Sleep (seconds : Q)     (* time.sleep(seconds) *)
| Now.                    (* datetime.now() *)

(** The state of the world is the trace of what the program did so far,
    oldest event first. *)
Definition World := list event.

(** What [requests.post] gives back: it raises, or it returns a response
    with a status code and a body seen through [B]. *)
Inductive response (B : Type) :=
| ConnectionError
| Http (status_code : Z) (body : B).
Arguments ConnectionError {B}.
Arguments Http {B} status_code body.

(** [response.json()] of a [fundingHistory] request. *)
Inductive history_json :=
| HNotJson                       (* response.json() raises *)
| HNotList (truthy : bool)       (* null, a number, a string, an object *)
| HList (data : list row).

(** A snapshot stored in the market mapping. *)
Record MarketSnapshot := mkSnapshot {
  volume24h : float;
  openInterest : float;
  markPx : float;
  funding : float
}.

(** A value of an asset context as [float(ctx.get(key, 0))] sees it. *)
Inductive field :=
| Absent                  (* no such key: the default 0 *)
| Num (f : float)         (* a number, or a string that float() accepts *)
| Unconvertible.          (* float() raises *)

(** An asset context that is a JSON object. *)
Record ctx_dict := mkCtx {
  dayNtlVlm : field;
  ctx_openInterest : field;
  ctx_markPx : field;
  ctx_funding : field
}.

(** [asset['name']], a JSON value of any type, as the tracker uses it. A
    string is a symbol. Null, a boolean or a number is no string but can be
    the key of a dictionary: [k] names the key, so that two values carry the
    same [k] exactly when Python takes them for the same key (as it does 1,
    1.0 and true). An array or an object cannot be a key. *)
Inductive name_json :=
| NStr (s : string)
| NKey (k : positive)
| NUnhashable.

#[global] Instance name_json_eq_dec : EqDecision name_json.
Proof. solve_decision. Defined.

#[global] Instance name_json_countable : Countable name_json.
Proof.
  apply (inj_countable'
           (fun n => match n with
                     | NStr s => inl s
                     | NKey k => inr (Some k)
                     | NUnhashable => inr None
                     end)
           (fun x => match x with
                     | inl s => NStr s
                     | inr (Some k) => NKey k
                     | inr None => NUnhashable
                     end)).
  now intros [].
Defined.

(** [response.json()] of a [metaAndAssetCtxs] request. In [CPair] the first
    component is [data[0]['universe']] as a sequence of [asset['name']]
    ([None]: the access raises) and the second is [data[1]] as a sequence of
    contexts ([None]: not an object, so [ctx.get] raises); a component is
    [None] when it cannot be read or iterated, which raises before the loop
    starts. *)
Inductive catalog_json :=
| CNotJson
| CNotPair                (* not a list, or fewer than two elements *)
| CPair (universe : option (list (option name_json)))
        (asset_ctxs : option (list (option ctx_dict))).

(** ** Sorting

    [sorted(data, key=lambda x: x['time'], reverse=True)]: the keys are
    computed first (any failing key aborts the sort), the sort is stable and
    [reverse=True] keeps the original order of items with equal keys. A stable
    sort has one possible result, written here as an insertion sort. *)

Fixpoint insert_desc {A} (x : Z * A) (l : list (Z * A)) : list (Z * A) :=
  match l with
  | [] => [x]
  | y :: ys => if fst x <? fst y then y :: insert_desc x ys else x :: y :: ys
  end.

Definition sort_desc {A} (l : list (Z * A)) : list (Z * A) :=
  fold_right insert_desc [] l.

Fixpoint keys (data : list row) : option (list Z) :=
  match data with
  | [] => Some []
  | d :: ds =>
      match time d, keys ds with
      | Some t, Some ts => Some (t :: ts)
      | _, _ => None
      end
  end.

Definition py_sorted_desc (data : list row) : option (list row) :=
  match keys data with
  | Some ks => Some (map snd (sort_desc (combine ks data)))
  | None => None
  end.

(** ** calculate_stats *)

Section Tracker.

(** The wall clock: [datetime.now().timestamp() * 1000] when the trace so
    far is [w]. *)
Variable clock : World -> float.

(** The endpoint's answer to a [fundingHistory] request issued when the
    trace so far is [w]. *)
Variable funding_upstream : World -> request -> response history_json.

(** [float(d['fundingRate']) for d in sorted_data if d['time'] >= cutoff] *)
Fixpoint window_rates (cutoff : float) (sorted_data : list row)
  : option (list float) :=
  match sorted_data with
  | [] => Some []
  | d :: ds =>
      match time d with
      | None => None
      | Some t =>
          if Z_geb_float t cutoff then
            match fundingRate d, window_rates cutoff ds with
            | Some r, Some rs => Some (r :: rs)
            | _, _ => None
            end
          else window_rates cutoff ds
      end
  end.

Definition sum_hours (now : float) (sorted_data : list row) (hours : Z)
  : option float :=
  let cutoff := (now - float_of_Z (hours * 60 * 60 * 1000))%float in
  option_map py_sum (window_rates cutoff sorted_data).

(** [[float(d['fundingRate']) for d in data]] *)
Fixpoint all_rates (data : list row) : option (list float) :=
  match data with
  | [] => Some []
  | d :: ds =>
      match fundingRate d, all_rates ds with
      | Some r, Some rs => Some (r :: rs)
      | _, _ => None
      end
  end.

(** The body of [calculate_stats] once [now] is read; [None] when any
    statement raises. The guards [if sorted_data] and [if rates] of the
    source are kept: their [else] branch is the integer [0]. *)
Definition stats_at (now : float) (data : list row) : option Stats.t :=
  match py_sorted_desc data with
  | None => None
  | Some sorted_data =>
      match all_rates data with
      | None => None
      | Some rates =>
          let rate8h :=
            match sorted_data with
            | d :: _ => fundingRate d
            | [] => Some 0%float
            end in
          match rate8h, sum_hours now sorted_data 24,
                sum_hours now sorted_data 72, sum_hours now sorted_data 168,
                sum_hours now sorted_data 720 with
          | Some r8, Some s1, Some s3, Some s7, Some s30 =>
              Some (Stats.mk r8 s1 s3 s7 s30
                      (match rates with
                       | [] => 0%float
                       | _ => (py_sum rates
                               / float_of_Z (Z.of_nat (length rates)))%float
                       end)
                      (match rates with [] => 0%float | r :: rs => py_max r rs end)
                      (match rates with [] => 0%float | r :: rs => py_min r rs end)
                      (length data))
          | _, _, _, _, _ => None
          end
      end
  end.

(** [calculate_stats(data)]: [(Some (Some s), w')] is a returned dictionary,
    [(Some None, w')] is a returned [None], [(None, w')] is a raised
    exception. The only effect is one reading of the clock. *)
Definition calculate_stats (data : list row) (w : World)
  : option (option Stats.t) * World :=
  match data with
  | [] => (Some None, w)
  | _ :: _ =>
      match stats_at (clock w) data with
      | Some s => (Some (Some s), w ++ [Now])
      | None => (None, w ++ [Now])
      end
  end.

(** ** fetch_funding_history *)

Definition max_iterations : nat := 20.
Definition max_retries : nat := 3.

(** [range(n)] *)
Definition range (n : nat) : list Z := map Z.of_nat (seq 0 n).

(** The request body: [endTime] is set only when [end_time] is truthy
    (neither [None] nor [0]). *)
Definition payload (coin : string) (current_start : Z) (end_time : option Z)
  : request :=
  FundingHistory coin current_start
    (match end_time with
     | Some e => if e =? 0 then None else Some e
     | None => None
     end).

(** [max(d['time'] for d in data)] *)
Fixpoint max_time_from (m : Z) (data : list row) : option Z :=
  match data with
  | [] => Some m
  | d :: ds =>
      match time d with
      | Some t => max_time_from (if m <? t then t else m) ds
      | None => None
      end
  end.

Definition max_time (data : list row) : option Z :=
  match data with
  | [] => None
  | d :: ds =>
      match time d with
      | Some t => max_time_from t ds
      | None => None
      end
  end.

(** How one pass through the [try] suite ends. [all_data] is a list object
    mutated in place by [extend], so the handler sees what was appended
    before the exception. *)
Inductive attempt :=
| Continue
| Return (all_data : list row)
| Break (all_data : list row) (current_start : Z)
| Except (all_data : list row).

Definition try_page (coin : string) (end_time : option Z)
    (all_data : list row) (current_start : Z) (retry : Z) (w : World)
  : attempt * World :=
  let p := payload coin current_start end_time in
  let w1 := w ++ [Post p] in
  match funding_upstream w p with
  | ConnectionError => (Except all_data, w1)
  | Http status_code body =>
      if status_code =? 429 then
        (Continue, w1 ++ [Sleep (inject_Z ((retry + 1) * 2))])
      else if negb (status_code =? 200) then (Return all_data, w1)
      else
        match body with
        | HNotJson => (Except all_data, w1)
        | HNotList _ => (Return all_data, w1)
        | HList [] => (Return all_data, w1)
        | HList data =>
            let all_data := all_data ++ data in
            if (length data <? 500)%nat then (Return all_data, w1)
            else
              match max_time data with
              | Some last_time => (Break all_data (last_time + 1), w1)
              | None => (Except all_data, w1)
              end
        end
  end.

(** How the retry loop of one page ends. *)
Inductive page_result :=
| Returned (all_data : list row)
| NextPage (all_data : list row) (current_start : Z).

(** [for retry in range(max_retries): try: ... except Exception: ...
    else: return all_data] *)
Fixpoint retry_loop (coin : string) (end_time : option Z) (retries : list Z)
    (all_data : list row) (current_start : Z) (w : World)
  : page_result * World :=
  match retries with
  | [] => (Returned all_data, w)
  | retry :: rest =>
      match try_page coin end_time all_data current_start retry w with
      | (Continue, w') =>
          retry_loop coin end_time rest all_data current_start w'
      | (Return r, w') => (Returned r, w')
      | (Break a c, w') => (NextPage a c, w')
      | (Except a, w') =>
          if retry =? Z.of_nat max_retries - 1 then (Returned a, w')
          else retry_loop coin end_time rest a current_start
                 (w' ++ [Sleep 1%Q])
      end
  end.

(** [for iteration in range(max_iterations): ...] followed by the final
    [return all_data]. *)
Fixpoint page_loop (coin : string) (end_time : option Z)
    (iterations : list Z) (all_data : list row) (current_start : Z)
    (w : World) : list row * World :=
  match iterations with
  | [] => (all_data, w)
  | _ :: rest =>
      match retry_loop coin end_time (range max_retries)
              all_data current_start w with
      | (Returned r, w') => (r, w')
      | (NextPage a c, w') => page_loop coin end_time rest a c w'
      end
  end.

Definition fetch_funding_history (coin : string) (start_time : Z)
    (end_time : option Z) (w : World) : list row * World :=
  page_loop coin end_time (range max_iterations) [] start_time w.

(** ** fetch_coin_data *)

Record coin_data := mkCoinData {
  history : list row;
  stats : option Stats.t
}.

Definition no_data : coin_data := mkCoinData [] None.

(** The bare [except:] catches whatever [calculate_stats] raises. *)
Definition fetch_coin_data (coin : string) (start_time end_time : Z)
    (w : World) : (string * coin_data) * World :=
  let (history, w1) :=
    fetch_funding_history coin start_time (Some end_time) w in
  match history with
  | [] => ((coin, no_data), w1)
  | _ :: _ =>
      match calculate_stats history w1 with
      | (Some stats, w2) => ((coin, mkCoinData history stats), w2)
      | (None, w2) => ((coin, no_data), w2)
      end
  end.

(** ** get_all_perp_assets *)

(** The endpoint's answer to a [metaAndAssetCtxs] request. *)
Variable meta_upstream : World -> request -> response catalog_json.

(** [float(ctx.get(key, 0))] *)
Definition float_get (v : field) : option float :=
  match v with
  | Absent => Some 0%float
  | Num f => Some f
  | Unconvertible => None
  end.

(** The dictionary display stored in the market mapping; its four values
    are evaluated in order and any of them may raise. *)
Definition snapshot_of (ctx : option ctx_dict) : option MarketSnapshot :=
  match ctx with
  | None => None
  | Some c =>
      match float_get (dayNtlVlm c), float_get (ctx_openInterest c),
            float_get (ctx_markPx c), float_get (ctx_funding c) with
      | Some v, Some oi, Some px, Some f => Some (mkSnapshot v oi px f)
      | _, _, _, _ => None
      end
  end.

(** [market_data[coin_name] = m], which raises [TypeError] on a name that
    cannot be hashed. *)
Definition store (coin_name : name_json) (m : MarketSnapshot)
    (market_data : gmap name_json MarketSnapshot)
  : option (gmap name_json MarketSnapshot) :=
  match coin_name with
  | NUnhashable => None
  | _ => Some (<[coin_name := m]> market_data)
  end.

(** [for asset, ctx in zip(meta['universe'], asset_ctxs): ...], cut short
    by the first statement that raises: what was appended and stored
    before it stays. The name is appended, whatever its type, before the
    dictionary display is evaluated and stored. *)
Fixpoint zip_loop (universe : list (option name_json))
    (asset_ctxs : list (option ctx_dict))
    (assets : list name_json) (market_data : gmap name_json MarketSnapshot)
  : list name_json * gmap name_json MarketSnapshot :=
  match universe, asset_ctxs with
  | asset :: universe', ctx :: asset_ctxs' =>
      match asset with
      | None => (assets, market_data)
      | Some coin_name =>
          let assets := assets ++ [coin_name] in
          match snapshot_of ctx with
          | None => (assets, market_data)
          | Some m =>
              match store coin_name m market_data with
              | None => (assets, market_data)
              | Some market_data =>
                  zip_loop universe' asset_ctxs' assets market_data
              end
          end
      end
  | _, _ => (assets, market_data)
  end.

(** One of the two [try: ... except Exception as e: print(...)] blocks of
    [get_all_perp_assets]; they differ by the [dex] of the request only. *)
Definition fetch_catalog (dex : option string) (w : World)
  : (list name_json * gmap name_json MarketSnapshot) * World :=
  let r := MetaAndAssetCtxs dex in
  let w1 := w ++ [Post r] in
  match meta_upstream w r with
  | ConnectionError => (([], ∅), w1)
  | Http status_code body =>
      if status_code =? 200 then
        match body with
        | CPair (Some universe) (Some asset_ctxs) =>
            (zip_loop universe asset_ctxs [] ∅, w1)
        | _ => (([], ∅), w1)
        end
      else (([], ∅), w1)
  end.

Definition get_all_perp_assets (include_main_perp : bool) (w : World)
  : (list name_json * list name_json * gmap name_json MarketSnapshot) * World :=
  let '((main_assets, main_market_data), w1) :=
    if include_main_perp then fetch_catalog None w else (([], ∅), w) in
  let '((hip3_assets, hip3_market_data), w2) :=
    fetch_catalog (Some "xyz"%string) w1 in
  ((main_assets, hip3_assets, hip3_market_data ∪ main_market_data), w2).

(** ** main *)

(** The unit handed to the report renderer. *)
Record symbol_record := mkRecord {
  rec_history : list row;
  rec_stats : option Stats.t;
  rec_market : MarketSnapshot
}.

Definition no_market : MarketSnapshot :=
  mkSnapshot 0%float 0%float 0%float 0%float.

(** The loop over [all_assets]; [None] when an exception leaves it. The
    first statement of the body, [coin.startswith('xyz:')], stands before the
    [try]: on a name that is no string it raises [AttributeError], which
    nothing catches, and the run ends there with no mapping. On a string no
    statement of the [try] suite can raise ([fetch_coin_data] catches
    everything and the keys it reads exist), so the [except Exception]
    handler of the loop is never entered and is not written out. *)
Fixpoint main_loop (all_assets : list name_json)
    (market_data : gmap name_json MarketSnapshot) (start_time end_time : Z)
    (all_data : gmap string symbol_record) (w : World)
  : option (gmap string symbol_record) * World :=
  match all_assets with
  | [] => (Some all_data, w)
  | NStr coin :: rest =>
      let '((coin_key, data), w1) :=
        fetch_coin_data coin start_time end_time w in
      let market :=
        match market_data !! NStr coin with
        | Some m => m
        | None => no_market
        end in
      let all_data :=
        <[coin_key := mkRecord (history data) (stats data) market]> all_data in
      main_loop rest market_data start_time end_time all_data
        (w1 ++ [Sleep (3 # 10)])
  | _ :: _ => (None, w)
  end.

(** [start_time] and [end_time] as [main] computes them from the clock
    (now minus thirty days, now) once the catalog is fetched. *)
Variable window : World -> Z * Z.

(** [main] up to the hand-over of [all_data] to the renderer; [None] when
    the loop is left by an exception and nothing is handed over. *)
Definition main (main_perp : bool) (w : World)
  : option (gmap string symbol_record) * World :=
  let '((main_assets, hip3_assets, market_data), w1) :=
    get_all_perp_assets main_perp w in
  let all_assets := main_assets ++ hip3_assets in
  let '(start_time, end_time) := window w1 in
  main_loop all_assets market_data start_time end_time ∅ (w1 ++ [Now; Now]).

End Tracker.

(** ** generate_html: the chart data *)

(** [sorted(data['history'], key=lambda x: x['time'])]: the stable sort by
    ascending key, as an insertion sort. *)
Fixpoint insert_asc {A} (x : Z * A) (l : list (Z * A)) : list (Z * A) :=
  match l with
  | [] => [x]
  | y :: ys => if fst y <? fst x then y :: insert_asc x ys else x :: y :: ys
  end.

Definition sort_asc {A} (l : list (Z * A)) : list (Z * A) :=
  fold_right insert_asc [] l.

Definition py_sorted_asc (data : list row) : option (list row) :=
  match keys data with
  | Some ks => Some (map snd (sort_asc (combine ks data)))
  | None => None
  end.

(** The slice [[-500:]]. *)
Definition last_500 {A} (l : list A) : list A := skipn (length l - 500) l.

Module Chart.
(** A point of a chart series: [{'time': ..., 'rate': ...}]. *)
Record point := mk {
  time : Z;
  rate : float
}.
End Chart.

(** [[{'time': d['time'], 'rate': float(d['fundingRate']) * 100} for d in ...]] *)
Fixpoint chart_points (l : list row) : option (list Chart.point) :=
  match l with
  | [] => Some []
  | d :: ds =>
      match time d, fundingRate d with
      | Some t, Some r =>
          match chart_points ds with
          | Some pts => Some (Chart.mk t (r * float_of_Z 100)%float :: pts)
          | None => None
          end
      | _, _ => None
      end
  end.

(** The series of one symbol; [None] when a statement raises. *)
Definition chart_series (history : list row) : option (list Chart.point) :=
  match py_sorted_asc history with
  | Some sorted_history => chart_points (last_500 sorted_history)
  | None => None
  end.

(** [for coin, data in all_data.items(): if data['history']: ...]; the
    order of the items only decides which exception comes first. *)
Fixpoint chart_loop (items : list (string * symbol_record))
    (chart_data : gmap string (list Chart.point))
  : option (gmap string (list Chart.point)) :=
  match items with
  | [] => Some chart_data
  | (coin, data) :: rest =>
      match rec_history data with
      | [] => chart_loop rest chart_data
      | _ :: _ =>
          match chart_series (rec_history data) with
          | Some pts => chart_loop rest (<[coin := pts]> chart_data)
          | None => None
          end
      end
  end.

Definition chart_data (all_data : gmap string symbol_record)
  : option (gmap string (list Chart.point)) :=
  chart_loop (map_to_list all_data) ∅.

(** * Vocabulary of the statements *)

(** ** Sorted histories and windows *)

Definition desc {A} (a b : Z * A) : Prop := fst b <= fst a.

(** The observations in the order [sorted(..., reverse=True)] gives them. *)
Definition sorted_obs (h : list observation) : list observation :=
  map snd (sort_desc (map (fun o => (obs_time o, o)) h)).

Definition by_time_desc (a b : observation) : Prop := obs_time b <= obs_time a.

(** An observation is inside the trailing window of [W] milliseconds when
    its timestamp is at least [now - W]; the subtraction is the float one
    and the comparison is exact. *)
Definition in_window (now : float) (W : Z) (o : observation) : bool :=
  Z_geb_float (obs_time o) (now - float_of_Z W)%float.

(** The windowed sum the source computes on a well-formed history. *)
Definition window_sum (now : float) (W : Z) (h : list observation) : float :=
  py_sum (map obs_rate (List.filter (in_window now W) (sorted_obs h))).

(** What it means for [total] to be the sum of the rates of exactly the
    observations of [h] inside the window: the summed observations are those
    ones, each once, taken from the most recent to the oldest. *)
Definition sums_window (now : float) (W : Z) (h : list observation)
    (total : float) : Prop :=
  exists sel,
    Permutation sel (List.filter (in_window now W) h)
    /\ StronglySorted by_time_desc sel
    /\ total = py_sum (map obs_rate sel).

(** ** Behaviours of the endpoint *)

Section Scenarios.

Variable upstream : World -> request -> response history_json.
Variable coin : string.
Variable end_time : option Z.

(** The endpoint serves the pages of [pages] one after the other, each at
    the first attempt, with status 200 and at least 500 well-formed rows,
    the cursor moving to one millisecond past the latest row of each page;
    after them the cursor and the world satisfy [K]. *)
Fixpoint serves (pages : list (list row)) (K : Z -> World -> Prop)
    (current_start : Z) (w : World) : Prop :=
  match pages with
  | [] => K current_start w
  | p :: ps =>
      upstream w (payload coin current_start end_time) = Http 200 (HList p)
      /\ (length p <? 500)%nat = false
      /\ match max_time p with
         | Some last_time =>
             serves ps K (last_time + 1)
               (w ++ [Post (payload coin current_start end_time)])
         | None => False
         end
  end.



(** Three attempts in a row fail in transport. *)
Definition unreachable (current_start : Z) (w : World) : Prop :=
  let p := payload coin current_start end_time in
  upstream w p = ConnectionError
  /\ upstream (w ++ [Post p; Sleep 1%Q]) p = ConnectionError
  /\ upstream (w ++ [Post p; Sleep 1%Q; Post p; Sleep 1%Q]) p
     = ConnectionError.

End Scenarios.

Fixpoint posts_of (tr : list event) : list request :=
  match tr with
  | [] => []
  | Post r :: tr' => r :: posts_of tr'
  | _ :: tr' => posts_of tr'
  end.

(** The requests of one page fetch: the same request, once per attempt. *)
Definition page_fetch (g : list request) : Prop :=
  exists r n, g = repeat r n /\ (1 <= n <= max_retries)%nat.




(** ** Records of the final mapping *)

(** The record stored for [coin] when its turn comes in the world [w]. *)
Definition record_at clock upstream
    (market_data : gmap name_json MarketSnapshot)
    (start_time end_time : Z) (coin : string) (w : World) : symbol_record :=
  let data := snd (fst (fetch_coin_data clock upstream coin start_time end_time w)) in
  mkRecord (history data) (stats data)
    (match market_data !! NStr coin with Some m => m | None => no_market end).




(** ** Traces, retries and charts *)

(** The cursor after the pages of [pages] are read from [current_start]. *)
Fixpoint cursor_after (current_start : Z) (pages : list (list row)) : Z :=
  match pages with
  | [] => current_start
  | p :: ps =>
      match max_time p with
      | Some last_time => cursor_after (last_time + 1) ps
      | None => current_start
      end
  end.

(** The requests that read the pages of [pages] from [current_start]: one
    per page, each starting one millisecond after the latest row of the
    page before. *)
Fixpoint page_requests (coin : string) (end_time : option Z)
    (current_start : Z) (pages : list (list row)) : list request :=
  match pages with
  | [] => []
  | p :: ps =>
      payload coin current_start end_time
      :: match max_time p with
         | Some last_time => page_requests coin end_time (last_time + 1) ps
         | None => []
         end
  end.

(** The seconds slept along a trace. *)
Fixpoint slept (tr : list event) : Q :=
  match tr with
  | [] => 0
  | Sleep s :: tr' => s + slept tr'
  | _ :: tr' => slept tr'
  end.

(** The seconds a fetch of [n] pages may sleep: 6 before each page that is
    read on, 12 on the last. *)
Fixpoint sleep_budget (n : nat) : Q :=
  match n with
  | O => 6
  | S n' => 6 + sleep_budget n'
  end.

(** What a fetch for [coin] may do: post a [fundingHistory] request for this
    symbol with the end of the window, or pause for 1, 2, 4 or 6 seconds. *)
Definition fetch_event (coin : string) (end_time : option Z) (e : event) : Prop :=
  match e with
  | Post r => exists c, r = payload coin c end_time
  | Sleep s => s = 1%Q \/ s = 2%Q \/ s = 4%Q \/ s = 6%Q
  | Now => False
  end.

Definition page_data (r : page_result) : list row :=
  match r with
  | Returned a => a
  | NextPage a _ => a
  end.

(** The list [all_data] as one pass through the [try] suite leaves it. *)
Definition attempt_data (all_data : list row) (a : attempt) : list row :=
  match a with
  | Continue => all_data
  | Return r => r
  | Break r _ => r
  | Except r => r
  end.

(** A row that the endpoint sent, in a list body with status 200, in answer
    to a request for this symbol made after the world [w0]. *)
Definition from_upstream (upstream : World -> request -> response history_json)
    (coin : string) (end_time : option Z) (w0 : World) (r : row) : Prop :=
  exists tr c data,
    upstream (w0 ++ tr) (payload coin c end_time) = Http 200 (HList data)
    /\ In r data.

(** The next attempt is answered by a list of fewer than 500 rows. *)
Definition last_page (upstream : World -> request -> response history_json)
    (coin : string) (end_time : option Z) (last : list row)
    (current_start : Z) (w : World) : Prop :=
  upstream w (payload coin current_start end_time) = Http 200 (HList last)
  /\ (length last < 500)%nat.



(** How an attempt fails: the endpoint is busy (status 429), or the attempt
    raises (no answer, or a body that is not JSON). *)
Inductive failure := Busy | Lost.

Definition answers (f : failure) (r : response history_json) : Prop :=
  match f with
  | Busy => exists b, r = Http 429 b
  | Lost => r = ConnectionError \/ r = Http 200 HNotJson
  end.

(** The pause that follows the failure [f] of the attempt number [retry]. *)
Definition pause_after (retry : Z) (f : failure) : list event :=
  match f with
  | Busy => [Sleep (inject_Z ((retry + 1) * 2))]
  | Lost => if retry =? 2 then [] else [Sleep 1%Q]
  end.

(** The three attempts on a page fail by [f0], [f1] and [f2]. *)
Definition fails_thrice (upstream : World -> request -> response history_json)
    (coin : string) (end_time : option Z) (f0 f1 f2 : failure)
    (current_start : Z) (w : World) : Prop :=
  let p := payload coin current_start end_time in
  let w1 := w ++ Post p :: pause_after 0 f0 in
  let w2 := w1 ++ Post p :: pause_after 1 f1 in
  answers f0 (upstream w p)
  /\ answers f1 (upstream w1 p)
  /\ answers f2 (upstream w2 p).

(** A row is well formed when its time and its rate can both be read. *)
Definition well_formed (d : row) : Prop :=
  time d <> None /\ fundingRate d <> None.

(** The ascending order of the chart series. *)
Definition asc {A} (a b : Z * A) : Prop := fst a <= fst b.

Definition sorted_asc_obs (h : list observation) : list observation :=
  map snd (sort_asc (map (fun o => (obs_time o, o)) h)).

Definition by_time_asc (a b : observation) : Prop := obs_time a <= obs_time b.

Definition chart_point_of (o : observation) : Chart.point :=
  Chart.mk (obs_time o) (obs_rate o * float_of_Z 100)%float.

(** The entry of the chart data for a record. *)
Definition chart_entry (rec : symbol_record) : option (list Chart.point) :=
  match rec_history rec with
  | [] => None
  | _ :: _ => chart_series (rec_history rec)
  end.

(** The mapping after the pairs of [pairs] are stored one after the other. *)
Definition store_all (pairs : list (name_json * MarketSnapshot))
    (market_data : gmap name_json MarketSnapshot)
  : gmap name_json MarketSnapshot :=
  fold_left (fun m p => <[fst p := snd p]> m) pairs market_data.



(** ** Page sizes and cursors *)

(** The endpoint keeps to its page size: a list it sends has at most 500
    rows, each with a readable time. *)
Definition capped (upstream : World -> request -> response history_json) : Prop :=
  forall w r data,
    upstream w r = Http 200 (HList data) ->
    (length data <= 500)%nat /\ Forall (fun d => time d <> None) data.

(** The [startTime] of a request. *)
Definition start_of (r : request) : Z :=
  match r with
  | FundingHistory _ startTime _ => startTime
  | MetaAndAssetCtxs _ => 0
  end.

(** The endpoint honours [startTime]: no row of a page is older than the
    cursor the page was asked from. *)
Fixpoint honoured (current_start : Z) (pages : list (list row)) : Prop :=
  match pages with
  | [] => True
  | p :: ps =>
      Forall (fun d => forall t, time d = Some t -> current_start <= t) p
      /\ match max_time p with
         | Some last_time => honoured (last_time + 1) ps
         | None => True
         end
  end.

(** * Sample inputs *)

(** A clock that stands still at midnight after one day, and three
    observations, eight hours apart, of the rate one tenth (the binary64
    number nearest to 0.1). *)
Definition steady_clock (w : World) : float := 86400000%float.

Definition tenth : float := 0x1.999999999999ap-4%float.

Definition three_tenths : list observation :=
  [mkObs 0 tenth; mkObs 28800000 tenth; mkObs 57600000 tenth].

(** Fixtures: a page of exactly 500 well-formed rows starting at [from],
    and endpoints that serve one such page and then only fail. *)
Definition sample_page (from : Z) : list row :=
  map (fun i => mkRow (Some (from + Z.of_nat i)) (Some tenth)) (seq 0 500).



Definition failing_upstream (w : World) (r : request) : response history_json :=
  match posts_of w with
  | [] => Http 200 (HList (sample_page 0))
  | _ => ConnectionError
  end.

(** An endpoint that answers every request with exactly 500 rows. *)
Definition endless_upstream (w : World) (r : request) : response history_json :=
  match r with
  | FundingHistory _ startTime _ => Http 200 (HList (sample_page startTime))
  | MetaAndAssetCtxs _ => Http 200 HNotJson
  end.

Definition twenty_pages : list (list row) :=
  map (fun i => sample_page (500 * Z.of_nat i)) (seq 0 20).

(** A page of 501 rows whose last row carries no usable [time], served at
    every attempt: [extend] runs before [max] raises, so the page is kept
    once per attempt. *)
Definition broken_page : list row := sample_page 0 ++ [mkRow None (Some tenth)].

Definition broken_upstream (w : World) (r : request) : response history_json :=
  Http 200 (HList broken_page).

(** A catalog whose second entry has a null name and a context that is no
    object, behind a first entry that is well formed. *)
Definition gold_ctx : ctx_dict :=
  mkCtx (Num 1000000%float) (Num 2500%float) (Num 4000%float) Absent.

Definition gold_snapshot : MarketSnapshot :=
  mkSnapshot 1000000%float 2500%float 4000%float 0%float.





(** The window from 0 to 1000, whatever the clock. *)
Definition sample_window (w : World) : Z * Z := (0, 1000).

(** Sample endpoints: one full page and then a short one; a first attempt
    that is rate limited, or lost, and a second that serves a short page. *)
Definition short_page : list row :=
  [mkRow (Some 500) (Some tenth); mkRow (Some 501) (Some tenth)].

Definition draining_upstream (w : World) (r : request) : response history_json :=
  match posts_of w with
  | [] => Http 200 (HList (sample_page 0))
  | _ => Http 200 (HList short_page)
  end.



Definition patchy_upstream (w : World) (r : request) : response history_json :=
  match posts_of w with
  | [] => Http 200 (HList (sample_page 0))
  | [_] => ConnectionError
  | [_; _] => Http 429 HNotJson
  | _ => Http 200 HNotJson
  end.

Definition tied : list observation :=
  [mkObs 10 tenth; mkObs 20 (tenth + tenth)%float; mkObs 20 tenth].

Definition sample_dataset : gmap string symbol_record :=
  {[ "xyz:GOLD"%string := mkRecord (map row_of three_tenths) None no_market ]}.

Definition listed_catalog : catalog_json :=
  CPair (Some (map Some [NStr "xyz:GOLD"; NStr "xyz:OIL"]))
        (Some [Some gold_ctx; Some gold_ctx]).

Definition listed_upstream (w : World) (r : request) : response catalog_json :=
  Http 200 listed_catalog.

(** * Properties *)

(** ** The sort *)

Lemma insert_desc_perm {A} (x : Z * A) (l : list (Z * A)) :
  Permutation (insert_desc x l) (x :: l).
Proof.
  induction l as [|y ys IH]; simpl; [reflexivity|].
  destruct (fst x <? fst y); [|reflexivity].
  rewrite IH. apply perm_swap.
Qed.

Lemma sort_desc_perm {A} (l : list (Z * A)) : Permutation (sort_desc l) l.
Proof.
  induction l as [|x l IH]; simpl; [reflexivity|].
  rewrite insert_desc_perm. now apply perm_skip.
Qed.

Lemma insert_desc_sorted {A} (x : Z * A) (l : list (Z * A)) :
  StronglySorted desc l -> StronglySorted desc (insert_desc x l).
Proof.
  induction 1 as [|y ys Hs IH Hall]; simpl.
  - repeat constructor.
  - destruct (Z.ltb_spec (fst x) (fst y)) as [Hlt|Hge].
    + constructor; [exact IH|].
      eapply Permutation_Forall; [symmetry; apply insert_desc_perm|].
      constructor; [unfold desc; lia|exact Hall].
    + constructor; [now constructor|].
      constructor; [exact Hge|].
      eapply List.Forall_impl; [|exact Hall].
      unfold desc; intros z Hz; lia.
Qed.

Lemma sort_desc_sorted {A} (l : list (Z * A)) : StronglySorted desc (sort_desc l).
Proof.
  induction l as [|x l IH]; simpl; [constructor|].
  now apply insert_desc_sorted.
Qed.

Lemma insert_desc_map {A B} (f : A -> B) (x : Z * A) (l : list (Z * A)) :
  insert_desc (fst x, f (snd x)) (map (fun p => (fst p, f (snd p))) l)
  = map (fun p => (fst p, f (snd p))) (insert_desc x l).
Proof.
  induction l as [|y ys IH]; simpl; [reflexivity|].
  destruct (fst x <? fst y); simpl; [|reflexivity].
  f_equal. exact IH.
Qed.

Lemma sort_desc_map {A B} (f : A -> B) (l : list (Z * A)) :
  sort_desc (map (fun p => (fst p, f (snd p))) l)
  = map (fun p => (fst p, f (snd p))) (sort_desc l).
Proof.
  induction l as [|x l IH]; simpl; [reflexivity|].
  rewrite IH. apply insert_desc_map.
Qed.

(** The head of a descending list dominates the list. *)
Lemma sorted_head_max {A} (x : Z * A) (l : list (Z * A)) :
  StronglySorted desc (x :: l) -> Forall (fun y => fst y <= fst x) (x :: l).
Proof.
  intros Hs. apply StronglySorted_inv in Hs as [_ Hall].
  constructor; [lia|exact Hall].
Qed.

(** ** Well-formed histories *)

Lemma sorted_obs_perm h : Permutation (sorted_obs h) h.
Proof.
  unfold sorted_obs.
  rewrite sort_desc_perm, map_map. simpl. now rewrite map_id.
Qed.

Lemma sort_desc_keyed (h : list observation) :
  Forall (fun p => fst p = obs_time (snd p))
         (sort_desc (map (fun o => (obs_time o, o)) h)).
Proof.
  eapply Permutation_Forall; [symmetry; apply sort_desc_perm|].
  apply List.Forall_forall. intros p Hp.
  apply in_map_iff in Hp as (o & <- & _). reflexivity.
Qed.

Lemma sorted_obs_sorted h : StronglySorted by_time_desc (sorted_obs h).
Proof.
  unfold sorted_obs.
  pose proof (sort_desc_sorted (map (fun o => (obs_time o, o)) h)) as Hs.
  pose proof (sort_desc_keyed h) as Hk.
  induction Hs as [|p l Hs IH Hall]; simpl; [constructor|].
  apply Forall_cons_1 in Hk as [Hp Hk].
  constructor; [now apply IH|].
  apply List.Forall_forall. intros o Ho.
  apply in_map_iff in Ho as (q & <- & Hq).
  rewrite List.Forall_forall in Hall, Hk.
  specialize (Hall q Hq). specialize (Hk q Hq).
  unfold by_time_desc, desc in *. lia.
Qed.

Lemma keys_obs h : keys (map row_of h) = Some (map obs_time h).
Proof.
  induction h as [|o h IH]; simpl; [reflexivity|]. now rewrite IH.
Qed.

Lemma combine_obs h :
  combine (map obs_time h) (map row_of h)
  = map (fun p => (fst p, row_of (snd p))) (map (fun o => (obs_time o, o)) h).
Proof.
  induction h as [|o h IH]; simpl; [reflexivity|]. now rewrite IH.
Qed.

Lemma py_sorted_desc_obs h :
  py_sorted_desc (map row_of h) = Some (map row_of (sorted_obs h)).
Proof.
  unfold py_sorted_desc, sorted_obs.
  rewrite keys_obs, combine_obs, sort_desc_map, !map_map. reflexivity.
Qed.

Lemma all_rates_obs h : all_rates (map row_of h) = Some (map obs_rate h).
Proof.
  induction h as [|o h IH]; simpl; [reflexivity|]. now rewrite IH.
Qed.

Lemma window_rates_obs cutoff l :
  window_rates cutoff (map row_of l)
  = Some (map obs_rate
            (List.filter (fun o => Z_geb_float (obs_time o) cutoff) l)).
Proof.
  induction l as [|o l IH]; simpl; [reflexivity|].
  destruct (Z_geb_float (obs_time o) cutoff); simpl; now rewrite IH.
Qed.

Lemma sum_hours_obs now l hours :
  sum_hours now (map row_of l) hours
  = Some (py_sum (map obs_rate
                    (List.filter (in_window now (hours * 60 * 60 * 1000)) l))).
Proof.
  unfold sum_hours. rewrite window_rates_obs. reflexivity.
Qed.

Lemma sorted_obs_cons o h : exists first rest, sorted_obs (o :: h) = first :: rest.
Proof.
  destruct (sorted_obs (o :: h)) as [|first rest] eqn:E; [|eauto].
  pose proof (sorted_obs_perm (o :: h)) as Hp. rewrite E in Hp.
  apply Permutation_nil in Hp. discriminate.
Qed.

(** The dictionary built from a non-empty well-formed history. *)
Lemma stats_at_obs now o h first rest :
  sorted_obs (o :: h) = first :: rest ->
  stats_at now (map row_of (o :: h))
  = Some (Stats.mk (obs_rate first)
            (window_sum now 86400000 (o :: h))
            (window_sum now 259200000 (o :: h))
            (window_sum now 604800000 (o :: h))
            (window_sum now 2592000000 (o :: h))
            (py_sum (map obs_rate (o :: h))
             / float_of_Z (Z.of_nat (length (o :: h))))%float
            (py_max (obs_rate o) (map obs_rate h))
            (py_min (obs_rate o) (map obs_rate h))
            (length (o :: h))).
Proof.
  intros E. unfold stats_at.
  rewrite py_sorted_desc_obs, all_rates_obs, !sum_hours_obs, E.
  cbn [map row_of fundingRate]. unfold window_sum. rewrite E.
  cbn [map length]. rewrite !length_map. reflexivity.
Qed.

Section StatsProperties.

Variable clock : World -> float.

Lemma calculate_stats_obs o h first rest w :
  sorted_obs (o :: h) = first :: rest ->
  exists s,
    calculate_stats clock (map row_of (o :: h)) w = (Some (Some s), w ++ [Now])
    /\ stats_at (clock w) (map row_of (o :: h)) = Some s.
Proof.
  intros E. pose proof (stats_at_obs (clock w) o h first rest E) as Hs.
  unfold calculate_stats. cbn [map]. cbn [map] in Hs. rewrite Hs.
  eexists; split; reflexivity.
Qed.

End StatsProperties.

Lemma filter_perm {A} (f : A -> bool) l l' :
  Permutation l l' -> Permutation (List.filter f l) (List.filter f l').
Proof.
  induction 1 as [|x l l' _ IH|x y l|l l' l'' _ IH1 _ IH2]; simpl.
  - reflexivity.
  - destruct (f x); [now apply perm_skip|exact IH].
  - destruct (f x), (f y); try reflexivity. apply perm_swap.
  - now rewrite IH1.
Qed.

Lemma filter_sorted {A} (R : A -> A -> Prop) (f : A -> bool) l :
  StronglySorted R l -> StronglySorted R (List.filter f l).
Proof.
  induction 1 as [|x l Hs IH Hall]; simpl; [constructor|].
  destruct (f x); [|exact IH].
  constructor; [exact IH|].
  apply List.Forall_forall. intros y Hy.
  apply List.filter_In in Hy as [Hy _].
  rewrite List.Forall_forall in Hall. now apply Hall.
Qed.

Lemma window_sum_sums now W h : sums_window now W h (window_sum now W h).
Proof.
  exists (List.filter (in_window now W) (sorted_obs h)).
  split; [apply filter_perm, sorted_obs_perm|].
  split; [apply filter_sorted, sorted_obs_sorted|reflexivity].
Qed.

(** C5. For every non-empty history and reference time, each of the four
    windowed statistics (1d, 3d, 7d, 30d) returned by [calculate_stats] is
    the sum of the rates of exactly the observations whose timestamp is at
    least the reference time minus 24h, 72h, 168h and 720h respectively: a
    sum, not an average. *)
Theorem calculate_stats_window_sums (clock : World -> float)
    (h : list observation) (w : World) :
  h <> [] ->
  exists s,
    calculate_stats clock (map row_of h) w = (Some (Some s), w ++ [Now])
    /\ sums_window (clock w) (24 * 3600000) h (Stats.sum1d s)
    /\ sums_window (clock w) (72 * 3600000) h (Stats.sum3d s)
    /\ sums_window (clock w) (168 * 3600000) h (Stats.sum7d s)
    /\ sums_window (clock w) (720 * 3600000) h (Stats.sum30d s).
Proof.
  intros Hne. destruct h as [|o h]; [congruence|].
  destruct (sorted_obs_cons o h) as (first & rest & E).
  destruct (calculate_stats_obs clock o h first rest w E) as (s & Hc & Hs).
  exists s. split; [exact Hc|].
  rewrite (stats_at_obs _ _ _ _ _ E) in Hs. injection Hs as <-.
  cbn [Stats.sum1d Stats.sum3d Stats.sum7d Stats.sum30d].
  repeat split; apply window_sum_sums.
Qed.

(** ** The order of binary64 numbers

    [<=] and [<] on floats are a total preorder once [nan] is set aside;
    the facts are read off the specification of the comparison. *)

Ltac sf_cases :=
  repeat match goal with
  | H : context [Pos.compare_cont Eq ?a ?b] |- _ =>
      change (Pos.compare_cont Eq a b) with (Pos.compare a b) in H
  | |- context [Pos.compare_cont Eq ?a ?b] =>
      change (Pos.compare_cont Eq a b) with (Pos.compare a b)
  end;
  repeat match goal with
  | H : context [Z.compare ?a ?b] |- _ => destruct (Z.compare_spec a b); subst
  | |- context [Z.compare ?a ?b] => destruct (Z.compare_spec a b); subst
  | H : context [Pos.compare ?a ?b] |- _ => destruct (Pos.compare_spec a b); subst
  | |- context [Pos.compare ?a ?b] => destruct (Pos.compare_spec a b); subst
  end;
  simpl in *; try congruence; try lia.

Lemma SFleb_refl a : a <> S754_nan -> SFleb a a = true.
Proof.
  unfold SFleb, SFcompare.
  destruct a as [[]|[]| |[] m e]; try congruence; intros _; simpl;
    try reflexivity; sf_cases.
Qed.

Lemma SFleb_ltb_trans a b c :
  SFleb a b = true -> SFltb b c = true -> SFleb a c = true.
Proof.
  unfold SFleb, SFltb, SFcompare.
  destruct a as [[]|[]| |[] ? ?], b as [[]|[]| |[] ? ?], c as [[]|[]| |[] ? ?];
    simpl; try congruence; intros; sf_cases.
Qed.

Lemma SFltb_leb_trans a b c :
  SFltb a b = true -> SFleb b c = true -> SFleb a c = true.
Proof.
  unfold SFleb, SFltb, SFcompare.
  destruct a as [[]|[]| |[] ? ?], b as [[]|[]| |[] ? ?], c as [[]|[]| |[] ? ?];
    simpl; try congruence; intros; sf_cases.
Qed.

Lemma SFltb_false_leb a b :
  a <> S754_nan -> b <> S754_nan -> SFltb a b = false -> SFleb b a = true.
Proof.
  unfold SFleb, SFltb, SFcompare.
  destruct a as [[]|[]| |[] ? ?], b as [[]|[]| |[] ? ?];
    simpl; try congruence; intros; sf_cases.
Qed.

Lemma is_nan_SF x : PrimFloat.is_nan x = false -> Prim2SF x <> S754_nan.
Proof.
  unfold PrimFloat.is_nan. rewrite FloatAxioms.eqb_spec.
  intros H E. rewrite E in H. discriminate.
Qed.

Lemma float_leb_refl x : PrimFloat.is_nan x = false -> (x <=? x)%float = true.
Proof. intros H. rewrite leb_spec. now apply SFleb_refl, is_nan_SF. Qed.

Lemma float_leb_ltb_trans x y z :
  (x <=? y)%float = true -> (y <? z)%float = true -> (x <=? z)%float = true.
Proof. rewrite !leb_spec, ltb_spec. apply SFleb_ltb_trans. Qed.

Lemma float_ltb_leb_trans x y z :
  (x <? y)%float = true -> (y <=? z)%float = true -> (x <=? z)%float = true.
Proof. rewrite !leb_spec, ltb_spec. apply SFltb_leb_trans. Qed.

Lemma float_ltb_false_leb x y :
  PrimFloat.is_nan x = false -> PrimFloat.is_nan y = false ->
  (x <? y)%float = false -> (y <=? x)%float = true.
Proof.
  intros Hx Hy. rewrite leb_spec, ltb_spec.
  apply SFltb_false_leb; now apply is_nan_SF.
Qed.

(** ** max and min *)

Lemma py_max_in xs : forall x, In (py_max x xs) (x :: xs).
Proof.
  induction xs as [|y ys IH]; intros x; [now left|].
  change (py_max x (y :: ys)) with (py_max (if (x <? y)%float then y else x) ys).
  destruct (IH (if (x <? y)%float then y else x)) as [E|Hin].
  - rewrite <- E. destruct (x <? y)%float; [right; now left|now left].
  - right; now right.
Qed.

Lemma py_min_in xs : forall x, In (py_min x xs) (x :: xs).
Proof.
  induction xs as [|y ys IH]; intros x; [now left|].
  change (py_min x (y :: ys)) with (py_min (if (y <? x)%float then y else x) ys).
  destruct (IH (if (y <? x)%float then y else x)) as [E|Hin].
  - rewrite <- E. destruct (y <? x)%float; [right; now left|now left].
  - right; now right.
Qed.

Lemma py_max_upper xs : forall m seen,
  PrimFloat.is_nan m = false ->
  (forall r, In r seen -> (r <=? m)%float = true) ->
  (forall r, In r xs -> PrimFloat.is_nan r = false) ->
  forall r, In r (seen ++ xs) -> (r <=? py_max m xs)%float = true.
Proof.
  induction xs as [|x xs IH]; intros m seen Hm Hseen Hxs r Hr.
  - rewrite app_nil_r in Hr. now apply Hseen.
  - change (py_max m (x :: xs)) with (py_max (if (m <? x)%float then x else m) xs).
    assert (Hx : PrimFloat.is_nan x = false) by (apply Hxs; now left).
    apply (IH _ (seen ++ [x])).
    + now destruct (m <? x)%float.
    + intros r' Hr'. apply in_app_or in Hr' as [Hr'|[<-|[]]].
      * destruct (m <? x)%float eqn:E; [|now apply Hseen].
        eapply float_leb_ltb_trans; [now apply Hseen|exact E].
      * destruct (m <? x)%float eqn:E; [now apply float_leb_refl|].
        now apply float_ltb_false_leb.
    + intros r' Hr'. apply Hxs. now right.
    + rewrite <- app_assoc. exact Hr.
Qed.

Lemma py_min_lower xs : forall m seen,
  PrimFloat.is_nan m = false ->
  (forall r, In r seen -> (m <=? r)%float = true) ->
  (forall r, In r xs -> PrimFloat.is_nan r = false) ->
  forall r, In r (seen ++ xs) -> (py_min m xs <=? r)%float = true.
Proof.
  induction xs as [|x xs IH]; intros m seen Hm Hseen Hxs r Hr.
  - rewrite app_nil_r in Hr. now apply Hseen.
  - change (py_min m (x :: xs)) with (py_min (if (x <? m)%float then x else m) xs).
    assert (Hx : PrimFloat.is_nan x = false) by (apply Hxs; now left).
    apply (IH _ (seen ++ [x])).
    + now destruct (x <? m)%float.
    + intros r' Hr'. apply in_app_or in Hr' as [Hr'|[<-|[]]].
      * destruct (x <? m)%float eqn:E; [|now apply Hseen].
        eapply float_ltb_leb_trans; [exact E|now apply Hseen].
      * destruct (x <? m)%float eqn:E; [now apply float_leb_refl|].
        now apply float_ltb_false_leb.
    + intros r' Hr'. apply Hxs. now right.
    + rewrite <- app_assoc. exact Hr.
Qed.

Lemma py_max_bounds x xs r :
  (forall r, In r (x :: xs) -> PrimFloat.is_nan r = false) ->
  In r (x :: xs) -> (r <=? py_max x xs)%float = true.
Proof.
  intros Hnan Hr. apply (py_max_upper xs x [x]).
  - apply Hnan; now left.
  - intros r' [<-|[]]. apply float_leb_refl, Hnan. now left.
  - intros r' Hr'. apply Hnan. now right.
  - exact Hr.
Qed.

Lemma py_min_bounds x xs r :
  (forall r, In r (x :: xs) -> PrimFloat.is_nan r = false) ->
  In r (x :: xs) -> (py_min x xs <=? r)%float = true.
Proof.
  intros Hnan Hr. apply (py_min_lower xs x [x]).
  - apply Hnan; now left.
  - intros r' [<-|[]]. apply float_leb_refl, Hnan. now left.
  - intros r' Hr'. apply Hnan. now right.
  - exact Hr.
Qed.

(** ** Statistics over the whole history *)

(** C6, as stated, fails: on three observations of the rate 0.1 the float
    sum is 0.30000000000000004 and the average 0.10000000000000002, above
    the maximum 0.1. *)
Lemma average_above_maximum :
  exists s,
    calculate_stats steady_clock (map row_of three_tenths) []
    = (Some (Some s), [Now])
    /\ Stats.count s = length three_tenths
    /\ (Stats.avg s <=? Stats.max s)%float = false.
Proof.
  eexists. split; [vm_compute; reflexivity|].
  split; vm_compute; reflexivity.
Qed.

(** C6, amended. For every non-empty history, [calculate_stats] returns
    statistics whose count is the number of observations, whose average is
    the float sum of all the rates divided by that count, and whose maximum
    and minimum are rates of the history, all over the entire history and
    not the trailing windows; when no rate is [nan], every rate lies between
    the minimum and the maximum, so minimum <= maximum. Nothing is promised
    on the position of the rounded average between them. *)
Theorem calculate_stats_whole_history (clock : World -> float)
    (h : list observation) (w : World) :
  h <> [] ->
  exists s,
    calculate_stats clock (map row_of h) w = (Some (Some s), w ++ [Now])
    /\ Stats.count s = length h
    /\ Stats.avg s
       = (py_sum (map obs_rate h) / float_of_Z (Z.of_nat (length h)))%float
    /\ In (Stats.max s) (map obs_rate h)
    /\ In (Stats.min s) (map obs_rate h)
    /\ ((forall o, In o h -> PrimFloat.is_nan (obs_rate o) = false) ->
        (forall o, In o h ->
           (Stats.min s <=? obs_rate o)%float = true
           /\ (obs_rate o <=? Stats.max s)%float = true)
        /\ (Stats.min s <=? Stats.max s)%float = true).
Proof.
  intros Hne. destruct h as [|o h]; [congruence|].
  destruct (sorted_obs_cons o h) as (first & rest & E).
  destruct (calculate_stats_obs clock o h first rest w E) as (s & Hc & Hs).
  exists s. split; [exact Hc|].
  rewrite (stats_at_obs _ _ _ _ _ E) in Hs. injection Hs as <-.
  cbn [Stats.count Stats.avg Stats.max Stats.min].
  split; [reflexivity|]. split; [reflexivity|].
  split; [apply py_max_in|]. split; [apply py_min_in|].
  intros Hnan.
  assert (Hrates : forall r, In r (obs_rate o :: map obs_rate h) ->
                             PrimFloat.is_nan r = false).
  { intros r Hr. change (In r (map obs_rate (o :: h))) in Hr.
    apply in_map_iff in Hr as (o' & <- & Ho'). now apply Hnan. }
  assert (Hall : forall o', In o' (o :: h) ->
            (py_min (obs_rate o) (map obs_rate h) <=? obs_rate o')%float = true
            /\ (obs_rate o' <=? py_max (obs_rate o) (map obs_rate h))%float = true).
  { intros o' Ho'.
    assert (Hin : In (obs_rate o') (obs_rate o :: map obs_rate h))
      by (change (In (obs_rate o') (map obs_rate (o :: h))); now apply in_map).
    split; [now apply py_min_bounds|now apply py_max_bounds]. }
  split; [exact Hall|].
  apply (py_max_bounds _ _ _ Hrates), py_min_in.
Qed.

Lemma calculate_stats_whole_history_example :
  three_tenths <> []
  /\ exists s,
       calculate_stats steady_clock (map row_of three_tenths) []
       = (Some (Some s), [] ++ [Now])
       /\ Stats.count s = 3%nat
       /\ (Stats.min s <=? Stats.max s)%float = true.
Proof.
  split; [discriminate|].
  destruct (calculate_stats_whole_history steady_clock three_tenths [])
    as (s & Hc & Hn & _ & _ & _ & Hb); [discriminate|].
  exists s. split; [exact Hc|]. split; [exact Hn|].
  apply Hb. intros o [<-|[<-|[<-|[]]]]; reflexivity.
Defined.

(** ** Purity *)

(** C7. [calculate_stats] is a function of the history and of the time it
    reads: two calls on the same history under the same reading of the clock
    return identical results, whatever else differs in the world, and a call
    changes nothing in the world (it reads the clock at most once). *)
Theorem calculate_stats_pure (clock1 clock2 : World -> float)
    (data : list row) (w1 w2 : World) :
  clock1 w1 = clock2 w2 ->
  fst (calculate_stats clock1 data w1) = fst (calculate_stats clock2 data w2)
  /\ (snd (calculate_stats clock1 data w1) = w1
      \/ snd (calculate_stats clock1 data w1) = w1 ++ [Now]).
Proof.
  intros Hnow. unfold calculate_stats. destruct data as [|d ds].
  - split; [reflexivity|now left].
  - rewrite <- Hnow.
    destruct (stats_at (clock1 w1) (d :: ds)); (split; [reflexivity|now right]).
Qed.

Lemma calculate_stats_pure_example :
  steady_clock [] = steady_clock [Sleep 1%Q]
  /\ fst (calculate_stats steady_clock (map row_of three_tenths) [])
     = fst (calculate_stats steady_clock (map row_of three_tenths) [Sleep 1%Q]).
Proof.
  split; [reflexivity|].
  apply (calculate_stats_pure steady_clock steady_clock
           (map row_of three_tenths) [] [Sleep 1%Q]).
  reflexivity.
Defined.

(** ** Pagination *)

Section FetchProperties.

Variable upstream : World -> request -> response history_json.
Variable coin : string.
Variable end_time : option Z.

Lemma try_page_full all_data c retry w data last_time :
  upstream w (payload coin c end_time) = Http 200 (HList data) ->
  (length data <? 500)%nat = false ->
  max_time data = Some last_time ->
  try_page upstream coin end_time all_data c retry w
  = (Break (all_data ++ data) (last_time + 1),
     w ++ [Post (payload coin c end_time)]).
Proof.
  intros Hup Hfull Hmax. unfold try_page. rewrite Hup.
  cbn [Z.eqb Pos.eqb negb].
  destruct data as [|d ds]; [discriminate Hfull|].
  rewrite Hfull, Hmax. reflexivity.
Qed.

Lemma retry_loop_full all_data c w data last_time :
  upstream w (payload coin c end_time) = Http 200 (HList data) ->
  (length data <? 500)%nat = false ->
  max_time data = Some last_time ->
  retry_loop upstream coin end_time (range max_retries) all_data c w
  = (NextPage (all_data ++ data) (last_time + 1),
     w ++ [Post (payload coin c end_time)]).
Proof.
  intros Hup Hfull Hmax.
  change (range max_retries) with [0; 1; 2].
  cbn [retry_loop].
  now rewrite (try_page_full _ _ _ _ _ _ Hup Hfull Hmax).
Qed.

(** Served pages are accumulated in order, one request each. *)
Lemma page_loop_serves pages : forall K iterations all_data c w,
  (length pages <= length iterations)%nat ->
  serves upstream coin end_time pages K c w ->
  exists c' reqs,
    K c' (w ++ map Post reqs)
    /\ length reqs = length pages
    /\ page_loop upstream coin end_time iterations all_data c w
       = page_loop upstream coin end_time (skipn (length pages) iterations)
           (all_data ++ concat pages) c' (w ++ map Post reqs).
Proof.
  induction pages as [|p ps IH]; intros K iterations all_data c w Hlen Hs.
  - exists c, []. cbn [map concat length skipn]. rewrite !app_nil_r. auto.
  - destruct iterations as [|i iterations]; [simpl in Hlen; lia|].
    cbn [serves] in Hs. destruct Hs as (Hup & Hfull & Hs).
    destruct (max_time p) as [last_time|] eqn:Hmax; [|contradiction].
    destruct (IH K iterations (all_data ++ p) (last_time + 1)
                (w ++ [Post (payload coin c end_time)]))
      as (c' & reqs & HK & Hn & Hloop); [simpl in Hlen; lia|exact Hs|].
    exists c', (payload coin c end_time :: reqs).
    cbn [map length skipn concat].
    replace (w ++ Post (payload coin c end_time) :: map Post reqs)
      with ((w ++ [Post (payload coin c end_time)]) ++ map Post reqs)
      by now rewrite <- app_assoc.
    replace (all_data ++ p ++ concat ps) with ((all_data ++ p) ++ concat ps)
      by now rewrite <- app_assoc.
    split; [exact HK|]. split; [now rewrite Hn|].
    cbn [page_loop].
    rewrite (retry_loop_full _ _ _ _ _ Hup Hfull Hmax). exact Hloop.
Qed.



Lemma retry_loop_unreachable all_data c w :
  unreachable upstream coin end_time c w ->
  let p := payload coin c end_time in
  retry_loop upstream coin end_time (range max_retries) all_data c w
  = (Returned all_data,
     w ++ [Post p; Sleep 1%Q; Post p; Sleep 1%Q; Post p]).
Proof.
  intros (H1 & H2 & H3) p. fold p in H1, H2, H3.
  change (range max_retries) with [0; 1; 2].
  cbn [retry_loop]. unfold try_page at 1. fold p.
  rewrite H1. cbn [Z.eqb Z.of_nat max_retries Z.sub]. rewrite <- !app_assoc.
  cbn [app]. unfold try_page at 1. fold p.
  rewrite H2. cbn [Z.eqb Pos.eqb Z.of_nat max_retries Z.sub].
  rewrite <- !app_assoc. cbn [app]. unfold try_page at 1. fold p.
  rewrite H3. rewrite <- !app_assoc. cbn [app]. reflexivity.
Qed.

End FetchProperties.

(** ** The requests a fetch issues *)

Lemma posts_of_app tr1 tr2 : posts_of (tr1 ++ tr2) = posts_of tr1 ++ posts_of tr2.
Proof.
  induction tr1 as [|e tr1 IH]; [reflexivity|].
  destruct e; simpl; now rewrite IH.
Qed.

Lemma posts_of_map_Post reqs : posts_of (map Post reqs) = reqs.
Proof. induction reqs as [|r reqs IH]; simpl; now rewrite ?IH. Qed.

Lemma skipn_cons_lt {A} (l : list A) n :
  (n < length l)%nat -> exists x rest, skipn n l = x :: rest.
Proof.
  revert n. induction l as [|x l IH]; intros n Hn; [simpl in Hn; lia|].
  destruct n as [|n]; [now exists x, l|].
  simpl. apply IH. simpl in Hn. lia.
Qed.

Section FetchTrace.

Variable upstream : World -> request -> response history_json.
Variable coin : string.
Variable end_time : option Z.

Lemma try_page_posts all_data c retry w :
  exists tr,
    snd (try_page upstream coin end_time all_data c retry w) = w ++ tr
    /\ posts_of tr = [payload coin c end_time].
Proof.
  unfold try_page.
  destruct (upstream w (payload coin c end_time)) as [|status body].
  - eexists; split; reflexivity.
  - destruct (status =? 429).
    + rewrite <- app_assoc. eexists; split; reflexivity.
    + destruct (negb (status =? 200)); [eexists; split; reflexivity|].
      destruct body as [|t|[|d ds]]; try (eexists; split; reflexivity).
      destruct (length (d :: ds) <? 500)%nat; [eexists; split; reflexivity|].
      destruct (max_time (d :: ds)); eexists; split; reflexivity.
Qed.

Lemma retry_loop_posts retries : forall all_data c w,
  exists tr n,
    snd (retry_loop upstream coin end_time retries all_data c w) = w ++ tr
    /\ posts_of tr = repeat (payload coin c end_time) n
    /\ (n <= length retries)%nat
    /\ (retries <> [] -> 1 <= n)%nat.
Proof.
  induction retries as [|retry rest IH]; intros all_data c w.
  - exists [], 0%nat. cbn. rewrite app_nil_r.
    repeat split; try reflexivity; congruence.
  - cbn [retry_loop].
    destruct (try_page_posts all_data c retry w) as (tr & Hw & Hp).
    destruct (try_page upstream coin end_time all_data c retry w) as [a w'].
    cbn [snd] in Hw. subst w'.
    assert (Hdone : forall r : page_result,
      exists tr0 n,
        snd (r, w ++ tr) = w ++ tr0
        /\ posts_of tr0 = repeat (payload coin c end_time) n
        /\ (n <= length (retry :: rest))%nat
        /\ (retry :: rest <> [] -> 1 <= n)%nat).
    { intros r. exists tr, 1%nat. cbn. rewrite Hp. repeat split; lia. }
    assert (Hnext : forall a' w',
      (exists tr', w' = w ++ tr' /\ posts_of tr' = [payload coin c end_time]) ->
      exists tr0 n,
        snd (retry_loop upstream coin end_time rest a' c w') = w ++ tr0
        /\ posts_of tr0 = repeat (payload coin c end_time) n
        /\ (n <= length (retry :: rest))%nat
        /\ (retry :: rest <> [] -> 1 <= n)%nat).
    { intros a' w' (tr' & -> & Hp').
      destruct (IH a' c (w ++ tr')) as (tr2 & n & Hw2 & Hp2 & Hn & _).
      exists (tr' ++ tr2), (S n). rewrite Hw2, app_assoc, posts_of_app, Hp', Hp2.
      cbn. repeat split; lia. }
    destruct a as [|r|a c'|a]; [| apply Hdone | apply Hdone |].
    + apply Hnext. now exists tr.
    + destruct (retry =? Z.of_nat max_retries - 1); [apply Hdone|].
      apply Hnext. exists (tr ++ [Sleep 1%Q]).
      rewrite app_assoc, posts_of_app, Hp. split; reflexivity.
Qed.

Lemma page_loop_posts iterations : forall all_data c w,
  exists tr groups,
    snd (page_loop upstream coin end_time iterations all_data c w) = w ++ tr
    /\ posts_of tr = concat groups
    /\ (length groups <= length iterations)%nat
    /\ Forall page_fetch groups.
Proof.
  induction iterations as [|i rest IH]; intros all_data c w.
  - exists [], []. cbn. rewrite app_nil_r. repeat split; [lia|constructor].
  - cbn [page_loop].
    destruct (retry_loop_posts (range max_retries) all_data c w)
      as (tr & n & Hw & Hp & Hn & H1).
    assert (Hg : page_fetch (posts_of tr)).
    { exists (payload coin c end_time), n. split; [exact Hp|].
      split; [apply H1; discriminate|exact Hn]. }
    destruct (retry_loop upstream coin end_time (range max_retries) all_data c w)
      as [[r|a c'] w']; cbn [snd] in Hw; subst w'.
    + exists tr, [posts_of tr]. cbn. rewrite app_nil_r.
      repeat split; [lia|now constructor].
    + destruct (IH a c' (w ++ tr)) as (tr2 & groups & Hw2 & Hp2 & Hlen & Hall).
      exists (tr ++ tr2), (posts_of tr :: groups).
      rewrite Hw2, app_assoc, posts_of_app, Hp2. cbn.
      repeat split; [lia|now constructor].
Qed.

End FetchTrace.

Lemma concat_page_fetch_length groups :
  Forall page_fetch groups ->
  (length (concat groups) <= max_retries * length groups)%nat.
Proof.
  induction 1 as [|g groups (r & n & -> & Hn) _ IH]; cbn; [lia|].
  rewrite length_app, repeat_length. unfold max_retries in *. lia.
Qed.

(** ** fetch_funding_history *)

Lemma fetch_after_pages upstream coin start_time end_time pages K w :
  (length pages < max_iterations)%nat ->
  serves upstream coin end_time pages K start_time w ->
  exists c reqs i rest,
    K c (w ++ map Post reqs)
    /\ length reqs = length pages
    /\ fetch_funding_history upstream coin start_time end_time w
       = page_loop upstream coin end_time (i :: rest) (concat pages) c
           (w ++ map Post reqs).
Proof.
  intros Hlen Hs. unfold fetch_funding_history.
  assert (Hr : length (range max_iterations) = max_iterations)
    by (unfold range; now rewrite length_map, length_seq).
  destruct (page_loop_serves upstream coin end_time pages K
              (range max_iterations) [] start_time w)
    as (c & reqs & HK & Hn & Hloop); [lia|exact Hs|].
  destruct (skipn_cons_lt (range max_iterations) (length pages))
    as (i & rest & Hskip); [lia|].
  exists c, reqs, i, rest. rewrite Hloop, Hskip. auto.
Qed.


Lemma max_time_sample_page_0 : max_time (sample_page 0) = Some 499.
Proof. vm_compute. reflexivity. Qed.


(** C4. When the first N-1 page requests are served and the three attempts
    on the N-th page fail in transport, the returned history is the
    concatenation of the N-1 served pages, in order: nothing lost, nothing
    twice. *)
Theorem fetch_keeps_pages_before_failure upstream coin start_time end_time
    pages w :
  (length pages < 20)%nat ->
  serves upstream coin end_time pages
    (unreachable upstream coin end_time) start_time w ->
  fst (fetch_funding_history upstream coin start_time end_time w)
  = concat pages.
Proof.
  intros Hlen Hs.
  destruct (fetch_after_pages _ _ _ _ _ _ _ Hlen Hs)
    as (c & reqs & i & rest & HK & Hn & ->).
  cbn [page_loop].
  now rewrite (retry_loop_unreachable _ _ _ _ _ _ HK).
Qed.

Lemma fetch_keeps_pages_before_failure_example :
  (length [sample_page 0] < 20)%nat
  /\ fst (fetch_funding_history failing_upstream "xyz:GOLD" 0 (Some 1000) [])
     = concat [sample_page 0].
Proof.
  split; [cbn; lia|].
  apply fetch_keeps_pages_before_failure; [cbn; lia|].
  cbn [serves]. split; [reflexivity|]. split; [reflexivity|].
  rewrite max_time_sample_page_0. repeat split; reflexivity.
Defined.

Remark malformed_page_kept_per_attempt :
  fst (fetch_funding_history broken_upstream "xyz:GOLD" 0 (Some 1000) [])
  = broken_page ++ broken_page ++ broken_page.
Proof. vm_compute. reflexivity. Qed.

(** C3. Whatever the endpoint answers, [fetch_funding_history] returns, and
    the requests it issued split into at most 20 page fetches, each made of
    one to three attempts of the same request; when the endpoint serves 20
    pages of 500 rows or more, the fetch stops after these 20 requests and
    returns the 20 pages accumulated. *)
Theorem fetch_page_cap upstream coin start_time end_time w :
  (exists tr groups,
     snd (fetch_funding_history upstream coin start_time end_time w) = w ++ tr
     /\ posts_of tr = concat groups
     /\ (length groups <= 20)%nat
     /\ Forall page_fetch groups
     /\ (length (posts_of tr) <= 60)%nat)
  /\ (forall pages,
        length pages = 20%nat ->
        serves upstream coin end_time pages (fun _ _ => True) start_time w ->
        exists reqs,
          length reqs = 20%nat
          /\ fetch_funding_history upstream coin start_time end_time w
             = (concat pages, w ++ map Post reqs)).
Proof.
  assert (Hr : length (range max_iterations) = 20%nat)
    by (unfold range; now rewrite length_map, length_seq).
  split.
  - destruct (page_loop_posts upstream coin end_time (range max_iterations)
                [] start_time w) as (tr & groups & Hw & Hp & Hlen & Hall).
    exists tr, groups. unfold fetch_funding_history.
    repeat split; [exact Hw|exact Hp|lia|exact Hall|].
    rewrite Hp. pose proof (concat_page_fetch_length groups Hall) as Hc.
    unfold max_retries in Hc. lia.
  - intros pages Hlen Hs. unfold fetch_funding_history.
    destruct (page_loop_serves upstream coin end_time pages (fun _ _ => True)
                (range max_iterations) [] start_time w)
      as (c & reqs & _ & Hn & Hloop); [lia|exact Hs|].
    exists reqs. split; [lia|]. rewrite Hloop, Hlen, <- Hr, skipn_all.
    reflexivity.
Qed.

Lemma serves_twenty_pages :
  serves endless_upstream "xyz:GOLD" (Some 1000) twenty_pages
    (fun _ _ => True) 0 [].
Proof. vm_compute. repeat split. Qed.

Lemma fetch_page_cap_example :
  exists reqs,
    length reqs = 20%nat
    /\ fetch_funding_history endless_upstream "xyz:GOLD" 0 (Some 1000) []
       = (concat twenty_pages, [] ++ map Post reqs).
Proof.
  destruct (fetch_page_cap endless_upstream "xyz:GOLD" 0 (Some 1000) [])
    as [_ H].
  apply H; [reflexivity|exact serves_twenty_pages].
Defined.

(** ** fetch_coin_data *)

Lemma calculate_stats_nonempty clock d ds w :
  fst (calculate_stats clock (d :: ds) w) <> Some None.
Proof.
  unfold calculate_stats. destruct (stats_at (clock w) (d :: ds)); discriminate.
Qed.

Lemma fetch_coin_data_cases clock upstream coin start_time end_time w :
  let fetched := fetch_funding_history upstream coin start_time (Some end_time) w in
  let summary := calculate_stats clock (fst fetched) (snd fetched) in
  let result := fst (fetch_coin_data clock upstream coin start_time end_time w) in
  fst result = coin
  /\ (stats (snd result) = None <-> history (snd result) = [])
  /\ (fst fetched = [] \/ fst summary = None -> snd result = no_data)
  /\ (forall s, fst fetched <> [] -> fst summary = Some (Some s) ->
                snd result = mkCoinData (fst fetched) (Some s)).
Proof.
  cbv zeta. unfold fetch_coin_data.
  destruct (fetch_funding_history upstream coin start_time (Some end_time) w)
    as [[|d ds] w1]; cbn [fst snd].
  - repeat split; try reflexivity; congruence.
  - pose proof (calculate_stats_nonempty clock d ds w1) as Hne.
    destruct (calculate_stats clock (d :: ds) w1) as [[[s|]|] w2];
      cbn [fst snd history stats no_data] in *.
    + repeat split; try congruence. intros [|]; congruence.
    + congruence.
    + repeat split; try reflexivity; congruence.
Qed.

(** C10. For every symbol and time window, [fetch_coin_data] returns (it is
    a total function) the pair of the symbol and a record whose statistics
    are null exactly when its history is empty: an empty fetch or an
    exception of [calculate_stats] gives the empty record, and a non-empty
    history whose statistics are computed is returned with them. *)
Theorem fetch_coin_data_stats_iff_history clock upstream coin start_time
    end_time w :
  let fetched := fetch_funding_history upstream coin start_time (Some end_time) w in
  let summary := calculate_stats clock (fst fetched) (snd fetched) in
  let result := fst (fetch_coin_data clock upstream coin start_time end_time w) in
  fst result = coin
  /\ (stats (snd result) = None <-> history (snd result) = [])
  /\ (fst fetched = [] \/ fst summary = None -> snd result = no_data)
  /\ (forall s, fst fetched <> [] -> fst summary = Some (Some s) ->
                snd result = mkCoinData (fst fetched) (Some s)).
Proof. apply fetch_coin_data_cases. Qed.

Lemma fetch_coin_data_obs clock upstream coin start_time end_time w h :
  h <> [] ->
  fst (fetch_funding_history upstream coin start_time (Some end_time) w)
  = map row_of h ->
  exists s,
    snd (fst (fetch_coin_data clock upstream coin start_time end_time w))
    = mkCoinData (map row_of h) (Some s).
Proof.
  intros Hne Hf. destruct h as [|o h]; [congruence|].
  destruct (sorted_obs_cons o h) as (first & rest & E).
  destruct (calculate_stats_obs clock o h first rest
              (snd (fetch_funding_history upstream coin start_time
                      (Some end_time) w)) E) as (s & Hc & _).
  exists s.
  destruct (fetch_coin_data_cases clock upstream coin start_time end_time w)
    as (_ & _ & _ & H).
  rewrite <- Hf. apply H; rewrite Hf; [discriminate|now rewrite Hc].
Qed.

(** ** The current rate *)

(** C9. For every non-empty history, the current rate returned by
    [calculate_stats] is the rate of the first element of the history sorted
    by descending timestamp (a permutation of the history, so an observation
    of the history with the maximal timestamp); the sort works on a copy:
    the history that [fetch_coin_data] hands on next to the statistics is
    the fetched list, in the order it was fetched. *)
Theorem calculate_stats_current_rate clock upstream (h : list observation) w :
  h <> [] ->
  exists s first rest,
    calculate_stats clock (map row_of h) w = (Some (Some s), w ++ [Now])
    /\ sorted_obs h = first :: rest
    /\ Permutation (sorted_obs h) h
    /\ StronglySorted by_time_desc (sorted_obs h)
    /\ Stats.rate8h s = obs_rate first
    /\ In first h
    /\ (forall o, In o h -> obs_time o <= obs_time first)
    /\ (forall coin start_time end_time w0,
          fst (fetch_funding_history upstream coin start_time (Some end_time) w0)
          = map row_of h ->
          history (snd (fst (fetch_coin_data clock upstream coin start_time
                               end_time w0)))
          = map row_of h).
Proof.
  intros Hne. destruct h as [|o h]; [congruence|].
  destruct (sorted_obs_cons o h) as (first & rest & E).
  destruct (calculate_stats_obs clock o h first rest w E) as (s & Hc & Hs).
  exists s, first, rest. split; [exact Hc|]. split; [exact E|].
  pose proof (sorted_obs_perm (o :: h)) as Hperm.
  pose proof (sorted_obs_sorted (o :: h)) as Hsorted.
  split; [exact Hperm|]. split; [exact Hsorted|].
  rewrite (stats_at_obs _ _ _ _ _ E) in Hs. injection Hs as <-.
  split; [reflexivity|].
  assert (Hfirst : In first (o :: h)).
  { eapply Permutation_in; [exact Hperm|]. rewrite E. now left. }
  split; [exact Hfirst|]. split.
  - intros o' Ho'.
    apply Permutation_sym in Hperm.
    apply (Permutation_in _ Hperm) in Ho'. rewrite E in Ho', Hsorted.
    destruct Ho' as [<-|Ho']; [lia|].
    apply StronglySorted_inv in Hsorted as [_ Hall].
    rewrite List.Forall_forall in Hall. now apply Hall.
  - intros coin start_time end_time w0 Hf.
    destruct (fetch_coin_data_obs clock upstream coin start_time end_time w0
                (o :: h) Hne Hf) as (s' & ->).
    reflexivity.
Qed.

Lemma calculate_stats_current_rate_example :
  three_tenths <> []
  /\ exists s,
       calculate_stats steady_clock (map row_of three_tenths) []
       = (Some (Some s), [] ++ [Now])
       /\ Stats.rate8h s = tenth.
Proof.
  split; [discriminate|].
  destruct (calculate_stats_current_rate steady_clock endless_upstream
              three_tenths []) as (s & first & rest & Hc & E & _ & _ & Hr & _);
    [discriminate|].
  exists s. split; [exact Hc|]. rewrite Hr.
  assert (E' : sorted_obs three_tenths
               = [mkObs 57600000 tenth; mkObs 28800000 tenth; mkObs 0 tenth])
    by (vm_compute; reflexivity).
  rewrite E' in E. injection E as <- _. reflexivity.
Defined.

Lemma calculate_stats_window_sums_example :
  three_tenths <> []
  /\ exists s,
       calculate_stats steady_clock (map row_of three_tenths) []
       = (Some (Some s), [] ++ [Now])
       /\ sums_window (steady_clock []) (24 * 3600000) three_tenths
            (Stats.sum1d s).
Proof.
  split; [discriminate|].
  destruct (calculate_stats_window_sums steady_clock three_tenths [])
    as (s & Hc & H1 & _); [discriminate|].
  exists s. split; [exact Hc|exact H1].
Defined.

Lemma fetch_coin_data_stats_iff_history_example :
  fst (fst (fetch_coin_data steady_clock failing_upstream "xyz:GOLD"
              0 1000 [])) = "xyz:GOLD"%string.
Proof.
  apply (fetch_coin_data_stats_iff_history steady_clock failing_upstream
           "xyz:GOLD" 0 1000 []).
Defined.

(** ** The catalog *)

Lemma combine_fst_firstn {A B} (l : list A) (l' : list B) :
  map fst (combine l l') = firstn (length l') l.
Proof.
  revert l'. induction l as [|x l IH]; intros [|y l']; cbn; try reflexivity.
  now rewrite IH.
Qed.

Lemma store_all_fresh pairs : forall market_data coin,
  ~ In coin (map fst pairs) ->
  store_all pairs market_data !! coin = market_data !! coin.
Proof.
  induction pairs as [|[k v] rest IH]; intros market coin Hn; [reflexivity|].
  cbn [store_all fold_left fst snd]. fold (store_all rest (<[k := v]> market)).
  rewrite IH by (intros H; apply Hn; now right).
  apply lookup_insert_ne. intros ->. apply Hn. now left.
Qed.

Lemma store_all_is_Some pairs : forall market_data coin,
  is_Some (store_all pairs market_data !! coin)
  <-> In coin (map fst pairs) \/ is_Some (market_data !! coin).
Proof.
  induction pairs as [|[k v] rest IH]; intros market coin.
  - cbn. intuition.
  - cbn [store_all fold_left fst snd map].
    fold (store_all rest (<[k := v]> market)).
    rewrite IH, lookup_insert_is_Some. cbn [In].
    destruct (decide (k = coin)); intuition.
Qed.

Lemma store_all_lookup pairs : forall market_data coin snap,
  List.NoDup (map fst pairs) -> In (coin, snap) pairs ->
  store_all pairs market_data !! coin = Some snap.
Proof.
  induction pairs as [|[k v] rest IH]; intros market coin snap Hnd Hin;
    [destruct Hin|].
  cbn [map fst] in Hnd. apply List.NoDup_cons_iff in Hnd as [Hk Hnd].
  cbn [store_all fold_left fst snd]. fold (store_all rest (<[k := v]> market)).
  destruct Hin as [E|Hin].
  - injection E as -> ->. rewrite store_all_fresh by exact Hk.
    apply lookup_insert_eq.
  - now apply IH.
Qed.


Lemma store_hashable coin_name m market_data :
  coin_name <> NUnhashable ->
  store coin_name m market_data = Some (<[coin_name := m]> market_data).
Proof. now destruct coin_name. Qed.

Lemma zip_loop_well_formed names : forall asset_ctxs snaps assets market_data,
  Forall (fun n => n <> NUnhashable) names ->
  map snapshot_of asset_ctxs = map Some snaps ->
  zip_loop (map Some names) asset_ctxs assets market_data
  = (assets ++ map fst (combine names snaps),
     store_all (combine names snaps) market_data).
Proof.
  induction names as [|name names IH]; intros ctxs snaps assets market Hh E.
  - unfold store_all. cbn. now rewrite app_nil_r.
  - apply Forall_cons_1 in Hh as [Hn Hh].
    destruct ctxs as [|ctx ctxs]; destruct snaps as [|snap snaps];
      try discriminate E.
    + unfold store_all. cbn. now rewrite app_nil_r.
    + cbn [map] in E. injection E as Hs E.
      cbn [map zip_loop combine].
      rewrite Hs, (store_hashable _ _ _ Hn), (IH _ snaps _ _ Hh E).
      cbn [map fst store_all fold_left snd]. now rewrite <- app_assoc.
Qed.


(** ** The loop of main *)

Lemma main_loop_lookup clock upstream market_data start_time end_time
    all_assets : forall all_data w m coin,
  fst (main_loop clock upstream all_assets market_data start_time end_time
         all_data w) = Some m ->
  (In (NStr coin) all_assets ->
   exists wi,
     m !! coin
     = Some (record_at clock upstream market_data start_time end_time coin wi))
  /\ (~ In (NStr coin) all_assets -> m !! coin = all_data !! coin).
Proof.
  induction all_assets as [|n rest IH]; intros all_data w m coin.
  - cbn. intros [= <-]. split; [intros []|reflexivity].
  - destruct n as [c|k|]; cbn [main_loop]; try discriminate.
    pose proof (fetch_coin_data_cases clock upstream c start_time end_time w)
      as (Hkey & _).
    destruct (fetch_coin_data clock upstream c start_time end_time w)
      as [[coin_key data] w1] eqn:E. cbn [fst] in Hkey. subst coin_key.
    intros Hm. destruct (IH _ _ m coin Hm) as [IHin IHout].
    destruct (in_dec (fun x y : name_json => decide (x = y)) (NStr coin) rest)
      as [Hin|Hout].
    + split; [intros _; now apply IHin|]. intros Hn. exfalso. apply Hn. now right.
    + rewrite (IHout Hout). destruct (decide (c = coin)) as [->|Hne].
      * split; [intros _|intros Hn; exfalso; apply Hn; now left].
        exists w. rewrite lookup_insert_eq. unfold record_at. now rewrite E.
      * rewrite lookup_insert_ne by exact Hne.
        split; [|reflexivity].
        intros [Hc|Hc]; [congruence|contradiction].
Qed.




(** ** The catalog fetch and its failures *)




(** ** The final mapping *)




(** * Further properties *)

Section FetchMore.

Variable upstream : World -> request -> response history_json.
Variable coin : string.
Variable end_time : option Z.

Lemma page_loop_serves_requests pages : forall K iterations all_data c w,
  (length pages <= length iterations)%nat ->
  serves upstream coin end_time pages K c w ->
  let w' := w ++ map Post (page_requests coin end_time c pages) in
  K (cursor_after c pages) w'
  /\ page_loop upstream coin end_time iterations all_data c w
     = page_loop upstream coin end_time (skipn (length pages) iterations)
         (all_data ++ concat pages) (cursor_after c pages) w'.
Proof.
  induction pages as [|p ps IH]; intros K iterations all_data c w Hlen Hs.
  - cbn. rewrite !app_nil_r. auto.
  - destruct iterations as [|i iterations]; [simpl in Hlen; lia|].
    cbn [serves] in Hs. destruct Hs as (Hup & Hfull & Hs).
    cbn [cursor_after page_requests].
    destruct (max_time p) as [last_time|] eqn:Hmax; [|contradiction].
    destruct (IH K iterations (all_data ++ p) (last_time + 1)
                (w ++ [Post (payload coin c end_time)])) as (HK & Hloop);
      [simpl in Hlen; lia|exact Hs|].
    cbn zeta. cbn [map length skipn concat].
    replace (w ++ Post (payload coin c end_time)
               :: map Post (page_requests coin end_time (last_time + 1) ps))
      with ((w ++ [Post (payload coin c end_time)])
              ++ map Post (page_requests coin end_time (last_time + 1) ps))
      by now rewrite <- app_assoc.
    replace (all_data ++ p ++ concat ps) with ((all_data ++ p) ++ concat ps)
      by now rewrite <- app_assoc.
    split; [exact HK|].
    cbn [page_loop].
    rewrite (retry_loop_full _ _ _ _ _ _ _ _ Hup Hfull Hmax). exact Hloop.
Qed.

Lemma try_page_world all_data c retry w :
  snd (try_page upstream coin end_time all_data c retry w)
  = w ++ Post (payload coin c end_time)
      :: match fst (try_page upstream coin end_time all_data c retry w) with
         | Continue => [Sleep (inject_Z ((retry + 1) * 2))]
         | _ => []
         end.
Proof.
  unfold try_page.
  destruct (upstream w (payload coin c end_time)) as [|status body];
    [reflexivity|].
  destruct (status =? 429); [now rewrite <- app_assoc|].
  destruct (negb (status =? 200)); [reflexivity|].
  destruct body as [|t|[|d ds]]; try reflexivity.
  destruct (length (d :: ds) <? 500)%nat; [reflexivity|].
  destruct (max_time (d :: ds)); reflexivity.
Qed.

Lemma try_page_rows all_data c retry w r :
  In r (attempt_data all_data
          (fst (try_page upstream coin end_time all_data c retry w))) ->
  In r all_data
  \/ exists data,
       upstream w (payload coin c end_time) = Http 200 (HList data)
       /\ In r data.
Proof.
  unfold try_page.
  destruct (upstream w (payload coin c end_time)) as [|status body];
    [now left|].
  destruct (status =? 429); [now left|].
  destruct (Z.eqb_spec status 200) as [->|_]; cbn [negb]; [|now left].
  destruct body as [|t|[|d ds]]; try (now left).
  assert (H : In r (all_data ++ d :: ds) ->
              In r all_data
              \/ exists data, Http 200 (HList (d :: ds)) = Http 200 (HList data)
                              /\ In r data).
  { intros Hr. apply in_app_or in Hr as [Hr|Hr]; [now left|].
    right. now exists (d :: ds). }
  destruct (length (d :: ds) <? 500)%nat; [exact H|].
  destruct (max_time (d :: ds)); exact H.
Qed.

Lemma retry_loop_events retries :
  Forall (fun r => 0 <= r <= 2) retries ->
  forall all_data c w,
  exists tr,
    snd (retry_loop upstream coin end_time retries all_data c w) = w ++ tr
    /\ Forall (fetch_event coin end_time) tr.
Proof.
  induction 1 as [|retry rest Hr _ IH]; intros all_data c w.
  - exists []. cbn. now rewrite app_nil_r.
  - cbn [retry_loop].
    pose proof (try_page_world all_data c retry w) as Hw.
    destruct (try_page upstream coin end_time all_data c retry w) as [a w'].
    cbn [fst snd] in Hw. subst w'.
    assert (Hpost : fetch_event coin end_time (Post (payload coin c end_time)))
      by now exists c.
    assert (Hsleep : fetch_event coin end_time
                       (Sleep (inject_Z ((retry + 1) * 2)))).
    { assert (Hcases : retry = 0 \/ retry = 1 \/ retry = 2) by lia.
      destruct Hcases as [E|[E|E]]; rewrite E; cbn; auto. }
    destruct a as [|r|a c'|a].
    + destruct (IH all_data c
                  (w ++ [Post (payload coin c end_time);
                         Sleep (inject_Z ((retry + 1) * 2))]))
        as (tr & -> & Htr).
      eexists. rewrite <- app_assoc. split; [reflexivity|].
      cbn. constructor; [assumption|]. constructor; assumption.
    + eexists. split; [reflexivity|]. constructor; [assumption|constructor].
    + eexists. split; [reflexivity|]. constructor; [assumption|constructor].
    + destruct (retry =? Z.of_nat max_retries - 1).
      * eexists. split; [reflexivity|]. constructor; [assumption|constructor].
      * destruct (IH a c ((w ++ [Post (payload coin c end_time)])
                            ++ [Sleep 1%Q])) as (tr & -> & Htr).
        eexists. rewrite <- !app_assoc. split; [reflexivity|].
        cbn. constructor; [assumption|]. constructor; [cbn; auto|assumption].
Qed.

Lemma page_loop_events iterations : forall all_data c w,
  exists tr,
    snd (page_loop upstream coin end_time iterations all_data c w) = w ++ tr
    /\ Forall (fetch_event coin end_time) tr.
Proof.
  induction iterations as [|i rest IH]; intros all_data c w.
  - exists []. cbn. now rewrite app_nil_r.
  - cbn [page_loop].
    destruct (retry_loop_events (range max_retries)) with (all_data := all_data)
      (c := c) (w := w) as (tr & Hw & Htr).
    { repeat constructor; lia. }
    destruct (retry_loop upstream coin end_time (range max_retries) all_data c w)
      as [[r|a c'] w']; cbn [snd] in Hw; subst w'.
    + now exists tr.
    + destruct (IH a c' (w ++ tr)) as (tr2 & -> & Htr2).
      exists (tr ++ tr2). rewrite app_assoc. split; [reflexivity|].
      apply Forall_app. now split.
Qed.

Lemma retry_loop_rows retries : forall all_data c w0 tr0,
  (forall r, In r all_data -> from_upstream upstream coin end_time w0 r) ->
  (forall r,
     In r (page_data (fst (retry_loop upstream coin end_time retries all_data c
                             (w0 ++ tr0)))) ->
     from_upstream upstream coin end_time w0 r)
  /\ exists tr1,
       snd (retry_loop upstream coin end_time retries all_data c (w0 ++ tr0))
       = w0 ++ tr1.
Proof.
  induction retries as [|retry rest IH]; intros all_data c w0 tr0 Hall.
  - cbn. split; [exact Hall|now exists tr0].
  - cbn [retry_loop].
    pose proof (try_page_world all_data c retry (w0 ++ tr0)) as Hw.
    pose proof (fun r => try_page_rows all_data c retry (w0 ++ tr0) r) as Hrows.
    destruct (try_page upstream coin end_time all_data c retry (w0 ++ tr0))
      as [a w']. cbn [fst snd] in Hw, Hrows. subst w'.
    assert (Hnew : forall r, In r (attempt_data all_data a) -> from_upstream upstream coin end_time w0 r).
    { intros r Hr. destruct (Hrows r Hr) as [Hin|(data & Hup & Hin)];
        [now apply Hall|]. now exists tr0, c, data. }
    rewrite <- app_assoc.
    destruct a as [|r|a c'|a]; cbn [attempt_data] in Hnew.
    + apply IH. exact Hall.
    + split; [exact Hnew|eauto].
    + split; [exact Hnew|eauto].
    + destruct (retry =? Z.of_nat max_retries - 1).
      * split; [exact Hnew|eauto].
      * rewrite <- app_assoc. apply IH. exact Hnew.
Qed.

Lemma page_loop_rows iterations : forall all_data c w0 tr0,
  (forall r, In r all_data -> from_upstream upstream coin end_time w0 r) ->
  forall r,
    In r (fst (page_loop upstream coin end_time iterations all_data c
                 (w0 ++ tr0))) ->
    from_upstream upstream coin end_time w0 r.
Proof.
  induction iterations as [|i rest IH]; intros all_data c w0 tr0 Hall.
  - exact Hall.
  - cbn [page_loop].
    destruct (retry_loop_rows (range max_retries) all_data c w0 tr0 Hall)
      as (Hrows & tr1 & Hw).
    destruct (retry_loop upstream coin end_time (range max_retries) all_data c
                (w0 ++ tr0)) as [[r|a c'] w'];
      cbn [fst snd page_data] in *; subst w'.
    + exact Hrows.
    + apply IH. exact Hrows.
Qed.

Lemma retry_loop_slept all_data c w :
  exists tr,
    snd (retry_loop upstream coin end_time (range max_retries) all_data c w)
    = w ++ tr
    /\ (slept tr <= 12)%Q
    /\ (forall a c',
          fst (retry_loop upstream coin end_time (range max_retries) all_data c w)
          = NextPage a c' ->
          (slept tr <= 6)%Q).
Proof.
  change (range max_retries) with [0; 1; 2].
  cbn [retry_loop].
  repeat
    (match goal with
     | |- context [try_page upstream coin end_time ?a ?c ?r ?w] =>
         let Hw := fresh "Hw" in
         pose proof (try_page_world a c r w) as Hw;
         destruct (try_page upstream coin end_time a c r w) as [[] ?];
         cbn [fst snd] in Hw; subst
     end;
     cbn [Z.eqb Pos.eqb Z.of_nat max_retries Z.sub Pos.of_succ_nat Pos.succ
          Z.pos_sub Z.succ_double Z.pred_double Z.double Pos.pred_double]);
  rewrite <- ?app_assoc; eexists; (split; [reflexivity|]);
  cbn [slept app];
  (split; [unfold Qle; cbn; lia|intros ? ? E; try discriminate E; unfold Qle; cbn; lia]).
Qed.

End FetchMore.

Lemma slept_app tr1 tr2 : (slept (tr1 ++ tr2) == slept tr1 + slept tr2)%Q.
Proof.
  induction tr1 as [|e tr1 IH]; cbn [app slept]; [lra|].
  destruct e; lra.
Qed.

Section FetchTheorems.

Variable upstream : World -> request -> response history_json.
Variable coin : string.
Variable end_time : option Z.

Lemma page_loop_slept iterations : forall all_data c w,
  exists tr,
    snd (page_loop upstream coin end_time iterations all_data c w) = w ++ tr
    /\ (slept tr <= sleep_budget (length iterations))%Q.
Proof.
  induction iterations as [|i rest IH]; intros all_data c w.
  - exists []. cbn. rewrite app_nil_r. split; [reflexivity|]. unfold Qle; cbn; lia.
  - cbn [page_loop length sleep_budget].
    destruct (retry_loop_slept upstream coin end_time all_data c w)
      as (tr & Hw & H12 & H6).
    assert (Hb : (0 <= sleep_budget (length rest))%Q).
    { clear. induction (length rest) as [|n IHn]; cbn [sleep_budget]; lra. }
    assert (Hb6 : (6 <= sleep_budget (length rest))%Q).
    { clear. induction (length rest) as [|n IHn]; cbn [sleep_budget]; lra. }
    destruct (retry_loop upstream coin end_time (range max_retries) all_data c w)
      as [[r|a c'] w']; cbn [fst snd] in *; subst w'.
    + exists tr. split; [reflexivity|]. lra.
    + destruct (IH a c' (w ++ tr)) as (tr2 & -> & Hs2).
      exists (tr ++ tr2). rewrite app_assoc. split; [reflexivity|].
      rewrite slept_app. specialize (H6 a c' eq_refl). lra.
Qed.

Lemma retry_loop_short all_data c w last :
  upstream w (payload coin c end_time) = Http 200 (HList last) ->
  (length last < 500)%nat ->
  retry_loop upstream coin end_time (range max_retries) all_data c w
  = (Returned (all_data ++ last), w ++ [Post (payload coin c end_time)]).
Proof.
  intros Hup Hshort.
  change (range max_retries) with [0; 1; 2].
  cbn [retry_loop]. unfold try_page. rewrite Hup. cbn [Z.eqb Pos.eqb negb].
  destruct last as [|d ds]; [now rewrite app_nil_r|].
  apply Nat.ltb_lt in Hshort. now rewrite Hshort.
Qed.

Lemma retry_loop_not_list all_data c w truthy :
  upstream w (payload coin c end_time) = Http 200 (HNotList truthy) ->
  retry_loop upstream coin end_time (range max_retries) all_data c w
  = (Returned all_data, w ++ [Post (payload coin c end_time)]).
Proof.
  intros Hup.
  change (range max_retries) with [0; 1; 2].
  cbn [retry_loop]. unfold try_page. now rewrite Hup.
Qed.

Lemma fetch_after_pages_requests start_time pages K w :
  (length pages < max_iterations)%nat ->
  serves upstream coin end_time pages K start_time w ->
  exists i rest,
    let w' := w ++ map Post (page_requests coin end_time start_time pages) in
    K (cursor_after start_time pages) w'
    /\ fetch_funding_history upstream coin start_time end_time w
       = page_loop upstream coin end_time (i :: rest) (concat pages)
           (cursor_after start_time pages) w'.
Proof.
  intros Hlen Hs. unfold fetch_funding_history.
  assert (Hr : length (range max_iterations) = max_iterations)
    by (unfold range; now rewrite length_map, length_seq).
  destruct (page_loop_serves_requests upstream coin end_time pages K
              (range max_iterations) [] start_time w) as (HK & Hloop);
    [lia|exact Hs|].
  destruct (skipn_cons_lt (range max_iterations) (length pages))
    as (i & rest & Hskip); [lia|].
  exists i, rest. cbn zeta. rewrite Hloop, Hskip. auto.
Qed.

Lemma page_requests_length start_time pages K w :
  serves upstream coin end_time pages K start_time w ->
  length (page_requests coin end_time start_time pages) = length pages.
Proof.
  revert start_time w. induction pages as [|p ps IH]; intros c w Hs;
    [reflexivity|].
  cbn [serves] in Hs. destruct Hs as (_ & _ & Hs).
  cbn [page_requests length].
  destruct (max_time p) as [t|]; [|contradiction].
  f_equal. eapply IH. exact Hs.
Qed.

End FetchTheorems.

(** X1. Pagination stops at the first page of fewer than 500 rows: after
    any number (below 20) of served pages, a list of fewer than 500 rows
    (possibly none) is appended and the history returned, with one request
    per page and no pause; an answer that is not a list returns the pages
    read so far in the same way. *)
Theorem fetch_until_short_page upstream coin start_time end_time pages w :
  (length pages < 20)%nat ->
  (forall last,
     serves upstream coin end_time pages
       (last_page upstream coin end_time last) start_time w ->
     fetch_funding_history upstream coin start_time end_time w
     = (concat pages ++ last,
        (w ++ map Post (page_requests coin end_time start_time pages))
        ++ [Post (payload coin (cursor_after start_time pages) end_time)]))
  /\ (forall truthy,
        serves upstream coin end_time pages
          (fun c w' => upstream w' (payload coin c end_time)
                       = Http 200 (HNotList truthy)) start_time w ->
        fetch_funding_history upstream coin start_time end_time w
        = (concat pages,
           (w ++ map Post (page_requests coin end_time start_time pages))
           ++ [Post (payload coin (cursor_after start_time pages) end_time)])).
Proof.
  intros Hlen. split.
  - intros last Hs.
    destruct (fetch_after_pages_requests _ _ _ _ _ _ _ Hlen Hs)
      as (i & rest & (Hup & Hshort) & ->).
    cbn [page_loop]. now rewrite (retry_loop_short _ _ _ _ _ _ _ Hup Hshort).
  - intros truthy Hs.
    destruct (fetch_after_pages_requests _ _ _ _ _ _ _ Hlen Hs)
      as (i & rest & Hup & ->).
    cbn [page_loop]. now rewrite (retry_loop_not_list _ _ _ _ _ _ _ Hup).
Qed.

Lemma fetch_until_short_page_example :
  fetch_funding_history draining_upstream "xyz:GOLD" 0 (Some 1000) []
  = (concat [sample_page 0] ++ short_page,
     ([] ++ map Post (page_requests "xyz:GOLD" (Some 1000) 0 [sample_page 0]))
     ++ [Post (payload "xyz:GOLD" (cursor_after 0 [sample_page 0]) (Some 1000))]).
Proof.
  assert (Hlen : (length [sample_page 0] < 20)%nat) by (cbn; lia).
  destruct (fetch_until_short_page draining_upstream "xyz:GOLD" 0 (Some 1000)
              [sample_page 0] [] Hlen) as [H _].
  apply H. cbn [serves]. split; [reflexivity|]. split; [reflexivity|].
  rewrite max_time_sample_page_0. split; [reflexivity|cbn; lia].
Defined.

(** X2. While pages are served, the requests follow the cursor: the first
    starts at [start_time], each next one a millisecond after the latest
    row of the page before, all for the same symbol and end time, one per
    page and with nothing between them. *)
Theorem fetch_requests_follow_cursor upstream coin start_time end_time pages K w :
  (length pages <= 20)%nat ->
  serves upstream coin end_time pages K start_time w ->
  length (page_requests coin end_time start_time pages) = length pages
  /\ exists tr,
       snd (fetch_funding_history upstream coin start_time end_time w)
       = (w ++ map Post (page_requests coin end_time start_time pages)) ++ tr.
Proof.
  intros Hlen Hs.
  split; [eapply page_requests_length; exact Hs|].
  unfold fetch_funding_history.
  assert (Hr : length (range max_iterations) = 20%nat)
    by (unfold range; now rewrite length_map, length_seq).
  destruct (page_loop_serves_requests upstream coin end_time pages K
              (range max_iterations) [] start_time w) as (_ & ->);
    [lia|exact Hs|].
  destruct (page_loop_events upstream coin end_time
              (skipn (length pages) (range max_iterations))
              ([] ++ concat pages) (cursor_after start_time pages)
              (w ++ map Post (page_requests coin end_time start_time pages)))
    as (tr & -> & _).
  now exists tr.
Qed.

Lemma fetch_requests_follow_cursor_example :
  exists tr,
    snd (fetch_funding_history draining_upstream "xyz:GOLD" 0 (Some 1000) [])
    = ([] ++ map Post [FundingHistory "xyz:GOLD" 0 (Some 1000)]) ++ tr.
Proof.
  destruct (fetch_requests_follow_cursor draining_upstream "xyz:GOLD" 0
              (Some 1000) [sample_page 0]
              (last_page draining_upstream "xyz:GOLD" (Some 1000) short_page) [])
    as (_ & tr & E).
  - cbn; lia.
  - cbn [serves]. split; [reflexivity|]. split; [reflexivity|].
    rewrite max_time_sample_page_0. split; [reflexivity|cbn; lia].
  - exists tr. exact E.
Defined.



(** X4. Whatever the endpoint answers, a fetch only posts [fundingHistory]
    requests for the symbol it was given, with the end time it was given,
    and only pauses for 1, 2, 4 or 6 seconds; it never reads the clock. *)
Theorem fetch_only_queries_symbol upstream coin start_time end_time w :
  exists tr,
    snd (fetch_funding_history upstream coin start_time end_time w) = w ++ tr
    /\ Forall (fetch_event coin end_time) tr.
Proof. apply page_loop_events. Qed.

(** X5. Whatever the endpoint answers, one fetch sleeps at most 126
    seconds in total: at most 6 before each of the first 19 pages and at
    most 12 on the last one. *)
Theorem fetch_sleep_budget upstream coin start_time end_time w :
  exists tr,
    snd (fetch_funding_history upstream coin start_time end_time w) = w ++ tr
    /\ (slept tr <= 126)%Q.
Proof.
  unfold fetch_funding_history.
  destruct (page_loop_slept upstream coin end_time (range max_iterations)
              [] start_time w) as (tr & Hw & Hs).
  exists tr. split; [exact Hw|].
  assert (E : (sleep_budget (length (range max_iterations)) == 126)%Q)
    by reflexivity.
  lra.
Qed.

(** X6. A fetch returns nothing of its own: every row of the returned
    history was sent by the endpoint, in a list with status 200, in answer
    to one of the requests of this fetch. *)
Theorem fetch_rows_from_upstream upstream coin start_time end_time w r :
  In r (fst (fetch_funding_history upstream coin start_time end_time w)) ->
  from_upstream upstream coin end_time w r.
Proof.
  intros Hr. unfold fetch_funding_history in Hr.
  apply (page_loop_rows upstream coin end_time (range max_iterations) []
           start_time w []); [intros ? []|].
  now rewrite app_nil_r.
Qed.

Lemma fetch_rows_from_upstream_example :
  from_upstream failing_upstream "xyz:GOLD" (Some 1000) []
    (mkRow (Some 0) (Some tenth)).
Proof.
  apply (fetch_rows_from_upstream failing_upstream "xyz:GOLD" 0 (Some 1000) []).
  vm_compute. left. reflexivity.
Defined.

Lemma well_formed_rows data :
  Forall well_formed data -> exists h, data = map row_of h.
Proof.
  induction 1 as [|d ds [Ht Hr] _ (h & ->)]; [now exists []|].
  destruct d as [[t|] [r|]]; cbn in Ht, Hr; try congruence.
  now exists (mkObs t r :: h).
Qed.

Lemma keys_None data d : In d data -> time d = None -> keys data = None.
Proof.
  induction data as [|x xs IH]; intros Hin Ht; [destruct Hin|].
  destruct Hin as [<-|Hin]; cbn [keys].
  - now rewrite Ht.
  - rewrite (IH Hin Ht). now destruct (time x).
Qed.

Lemma all_rates_None data d :
  In d data -> fundingRate d = None -> all_rates data = None.
Proof.
  induction data as [|x xs IH]; intros Hin Hr; [destruct Hin|].
  destruct Hin as [<-|Hin]; cbn [all_rates].
  - now rewrite Hr.
  - rewrite (IH Hin Hr). now destruct (fundingRate x).
Qed.

Lemma stats_at_malformed now data d :
  In d data -> ~ well_formed d -> stats_at now data = None.
Proof.
  intros Hin Hbad. unfold stats_at, py_sorted_desc.
  destruct (time d) as [t|] eqn:Ht.
  - destruct (fundingRate d) as [r|] eqn:Hr.
    + exfalso. apply Hbad. unfold well_formed. rewrite Ht, Hr. split; discriminate.
    + rewrite (all_rates_None data d Hin Hr). now destruct (keys data).
  - now rewrite (keys_None data d Hin Ht).
Qed.

Lemma not_all_well_formed data :
  ~ Forall well_formed data -> exists d, In d data /\ ~ well_formed d.
Proof.
  induction data as [|x xs IH]; intros H; [exfalso; apply H; constructor|].
  destruct x as [[t|] [r|]].
  - destruct IH as (d & Hin & Hd).
    { intros Hall. apply H. constructor; [split; discriminate|exact Hall]. }
    exists d. split; [now right|exact Hd].
  - eexists. split; [now left|]. intros [_ Hr]. now apply Hr.
  - eexists. split; [now left|]. intros [Ht _]. now apply Ht.
  - eexists. split; [now left|]. intros [Ht _]. now apply Ht.
Qed.

Lemma stats_at_well_formed now d ds :
  Forall well_formed (d :: ds) -> stats_at now (d :: ds) <> None.
Proof.
  intros Hall. destruct (well_formed_rows _ Hall) as ([|o h] & E);
    [discriminate E|].
  rewrite E. destruct (sorted_obs_cons o h) as (first & rest & Es).
  rewrite (stats_at_obs now o h first rest Es). discriminate.
Qed.

(** X7. On a non-empty history [calculate_stats] raises exactly when some
    row lacks a readable time or a readable rate; otherwise it returns a
    dictionary. *)
Theorem calculate_stats_raises_iff_malformed clock d ds w :
  (fst (calculate_stats clock (d :: ds) w) = None
   <-> exists x, In x (d :: ds) /\ ~ well_formed x)
  /\ (Forall well_formed (d :: ds) ->
      exists s, fst (calculate_stats clock (d :: ds) w) = Some (Some s)).
Proof.
  unfold calculate_stats. split; [split|].
  - intros Hnone.
    destruct (stats_at (clock w) (d :: ds)) as [s|] eqn:E; [discriminate|].
    apply not_all_well_formed. intros Hall.
    now apply (stats_at_well_formed (clock w) d ds Hall).
  - intros (x & Hin & Hbad).
    now rewrite (stats_at_malformed (clock w) (d :: ds) x Hin Hbad).
  - intros Hall.
    destruct (stats_at (clock w) (d :: ds)) as [s|] eqn:E; [now exists s|].
    now destruct (stats_at_well_formed (clock w) d ds Hall).
Qed.

Lemma calculate_stats_raises_iff_malformed_example :
  exists s,
    fst (calculate_stats steady_clock (map row_of three_tenths) [])
    = Some (Some s).
Proof.
  apply (calculate_stats_raises_iff_malformed steady_clock
           (row_of (mkObs 0 tenth))
           (map row_of [mkObs 28800000 tenth; mkObs 57600000 tenth]) []).
  repeat constructor; discriminate.
Defined.

(** X8. [fetch_coin_data] keeps a fetched history whole or not at all: a
    non-empty history whose rows are all well formed is returned as it was
    fetched, with its statistics; one malformed row anywhere, or an empty
    fetch, gives the empty record. Besides the fetch, its only effect is one
    reading of the clock, made when the fetched history is not empty. *)
Theorem fetch_coin_data_all_or_nothing clock upstream coin start_time end_time w :
  let fetched :=
    fst (fetch_funding_history upstream coin start_time (Some end_time) w) in
  let data :=
    snd (fst (fetch_coin_data clock upstream coin start_time end_time w)) in
  (fetched <> [] -> Forall well_formed fetched ->
   history data = fetched /\ stats data <> None)
  /\ (fetched = [] \/ (exists x, In x fetched /\ ~ well_formed x) ->
      data = no_data)
  /\ snd (fetch_coin_data clock upstream coin start_time end_time w)
     = snd (fetch_funding_history upstream coin start_time (Some end_time) w)
       ++ match fetched with [] => [] | _ :: _ => [Now] end.
Proof.
  cbv zeta.
  destruct (fetch_coin_data_cases clock upstream coin start_time end_time w)
    as (_ & _ & Hfail & Hok).
  split; [|split].
  3:{ unfold fetch_coin_data, calculate_stats.
      destruct (fetch_funding_history upstream coin start_time (Some end_time) w)
        as [[|d ds] w1]; cbn [fst snd]; [now rewrite app_nil_r|].
      now destruct (stats_at (clock w1) (d :: ds)). }
  - intros Hne Hall.
    destruct (fetch_funding_history upstream coin start_time (Some end_time) w)
      as [[|d ds] w1]; cbn [fst snd] in *; [congruence|].
    unfold calculate_stats in Hok.
    destruct (stats_at (clock w1) (d :: ds)) as [s|] eqn:E.
    + rewrite (Hok s Hne eq_refl). split; [reflexivity|discriminate].
    + now destruct (stats_at_well_formed (clock w1) d ds Hall).
  - intros [Hnil|(x & Hin & Hbad)]; apply Hfail; [now left|].
    destruct (fetch_funding_history upstream coin start_time (Some end_time) w)
      as [[|d ds] w1]; cbn [fst snd] in *; [now left|right].
    unfold calculate_stats.
    now rewrite (stats_at_malformed (clock w1) (d :: ds) x Hin Hbad).
Qed.

Lemma fetch_coin_data_all_or_nothing_example :
  history (snd (fst (fetch_coin_data steady_clock failing_upstream "xyz:GOLD"
                       0 1000 [])))
  = sample_page 0.
Proof.
  destruct (fetch_coin_data_all_or_nothing steady_clock failing_upstream
              "xyz:GOLD" 0 1000 []) as [H _].
  assert (E : fst (fetch_funding_history failing_upstream "xyz:GOLD" 0
                     (Some 1000) []) = sample_page 0)
    by (vm_compute; reflexivity).
  rewrite E in H. apply H; [discriminate|].
  unfold sample_page. apply List.Forall_forall. intros x Hx.
  apply in_map_iff in Hx as (i & <- & _). split; discriminate.
Defined.

(** ** Filtering and sorting *)

Lemma insert_desc_head {A} (x : Z * A) l :
  Forall (fun z => fst z <= fst x) l -> insert_desc x l = x :: l.
Proof.
  intros H. destruct l as [|y ys]; [reflexivity|].
  apply Forall_inv in H. cbn [insert_desc].
  destruct (Z.ltb_spec (fst x) (fst y)); [lia|reflexivity].
Qed.

Lemma filter_insert_desc {A} (P : Z * A -> bool) (x : Z * A) l :
  StronglySorted desc l ->
  List.filter P (insert_desc x l)
  = if P x then insert_desc x (List.filter P l) else List.filter P l.
Proof.
  induction 1 as [|y ys Hs IH Hall]; [cbn; now destruct (P x)|].
  cbn [insert_desc].
  destruct (Z.ltb_spec (fst x) (fst y)) as [Hlt|Hge].
  - cbn [List.filter]. rewrite IH. destruct (P y), (P x); try reflexivity.
    cbn [insert_desc]. apply Z.ltb_lt in Hlt. now rewrite Hlt.
  - change (List.filter P (x :: y :: ys))
      with (if P x then x :: List.filter P (y :: ys)
            else List.filter P (y :: ys)).
    destruct (P x); [|reflexivity].
    symmetry. apply insert_desc_head.
    assert (Hle : Forall (fun z => fst z <= fst x) (y :: ys)).
    { constructor; [exact Hge|].
      eapply List.Forall_impl; [|exact Hall]. unfold desc. intros z Hz. lia. }
    apply List.Forall_forall. intros z Hz.
    apply List.filter_In in Hz as [Hz _].
    rewrite List.Forall_forall in Hle. now apply Hle.
Qed.

Lemma filter_sort_desc {A} (P : Z * A -> bool) l :
  List.filter P (sort_desc l) = sort_desc (List.filter P l).
Proof.
  induction l as [|x l IH]; [reflexivity|].
  cbn [sort_desc fold_right List.filter].
  rewrite filter_insert_desc by apply sort_desc_sorted.
  fold (sort_desc l). rewrite IH. now destruct (P x).
Qed.

Lemma filter_sorted_obs (P : observation -> bool) h :
  List.filter P (sorted_obs h) = sorted_obs (List.filter P h).
Proof.
  unfold sorted_obs.
  assert (Hmap : forall l : list (Z * observation),
            List.filter P (map snd l)
            = map snd (List.filter (fun p => P (snd p)) l)).
  { induction l as [|p l IHl]; [reflexivity|].
    cbn [map List.filter]. rewrite IHl. now destruct (P (snd p)). }
  rewrite Hmap, filter_sort_desc. f_equal. f_equal.
  induction h as [|o h IH]; [reflexivity|].
  cbn [map List.filter snd]. rewrite IH. now destruct (P o).
Qed.

Lemma window_sum_filter now W h :
  window_sum now W h
  = py_sum (map obs_rate (sorted_obs (List.filter (in_window now W) h))).
Proof. unfold window_sum. now rewrite filter_sorted_obs. Qed.

Lemma calculate_stats_obs_fst clock h w :
  h <> [] ->
  exists o h' first rest,
    h = o :: h'
    /\ sorted_obs h = first :: rest
    /\ fst (calculate_stats clock (map row_of h) w)
       = Some (Some (Stats.mk (obs_rate first)
                       (window_sum (clock w) 86400000 h)
                       (window_sum (clock w) 259200000 h)
                       (window_sum (clock w) 604800000 h)
                       (window_sum (clock w) 2592000000 h)
                       (py_sum (map obs_rate h)
                        / float_of_Z (Z.of_nat (length h)))%float
                       (py_max (obs_rate o) (map obs_rate h'))
                       (py_min (obs_rate o) (map obs_rate h'))
                       (length h))).
Proof.
  intros Hne. destruct h as [|o h']; [congruence|].
  destruct (sorted_obs_cons o h') as (first & rest & E).
  exists o, h', first, rest. split; [reflexivity|]. split; [exact E|].
  destruct (calculate_stats_obs clock o h' first rest w E) as (s & Hc & Hs).
  rewrite Hc. cbn [fst]. rewrite (stats_at_obs _ _ _ _ _ E) in Hs.
  now injection Hs as <-.
Qed.

(** X9. Observations older than a window do not weigh on its sum: two
    non-empty histories summarised under the same reading of the clock have
    the same 1-day (3-day, 7-day, 30-day) sum as soon as their observations
    inside that window are the same, in the same order. *)
Theorem calculate_stats_windows_local clock1 clock2 h1 h2 w1 w2 :
  h1 <> [] -> h2 <> [] -> clock1 w1 = clock2 w2 ->
  exists s1 s2,
    fst (calculate_stats clock1 (map row_of h1) w1) = Some (Some s1)
    /\ fst (calculate_stats clock2 (map row_of h2) w2) = Some (Some s2)
    /\ (List.filter (in_window (clock1 w1) (24 * 3600000)) h1
        = List.filter (in_window (clock1 w1) (24 * 3600000)) h2 ->
        Stats.sum1d s1 = Stats.sum1d s2)
    /\ (List.filter (in_window (clock1 w1) (72 * 3600000)) h1
        = List.filter (in_window (clock1 w1) (72 * 3600000)) h2 ->
        Stats.sum3d s1 = Stats.sum3d s2)
    /\ (List.filter (in_window (clock1 w1) (168 * 3600000)) h1
        = List.filter (in_window (clock1 w1) (168 * 3600000)) h2 ->
        Stats.sum7d s1 = Stats.sum7d s2)
    /\ (List.filter (in_window (clock1 w1) (720 * 3600000)) h1
        = List.filter (in_window (clock1 w1) (720 * 3600000)) h2 ->
        Stats.sum30d s1 = Stats.sum30d s2).
Proof.
  intros H1 H2 Hnow.
  destruct (calculate_stats_obs_fst clock1 h1 w1 H1)
    as (o1 & t1 & f1 & r1 & _ & _ & E1).
  destruct (calculate_stats_obs_fst clock2 h2 w2 H2)
    as (o2 & t2 & f2 & r2 & _ & _ & E2).
  eexists. eexists. split; [exact E1|]. split; [exact E2|].
  cbn [Stats.sum1d Stats.sum3d Stats.sum7d Stats.sum30d].
  rewrite <- Hnow, !window_sum_filter.
  repeat split; intros E;
    match type of E with
    | List.filter (in_window _ ?W) _ = _ =>
        match goal with
        | |- context [in_window _ ?W'] =>
            change W' with W; now rewrite E
        end
    end.
Qed.

Lemma calculate_stats_windows_local_example :
  exists s1 s2,
    fst (calculate_stats steady_clock
           (map row_of (mkObs (-1) tenth :: three_tenths)) [])
    = Some (Some s1)
    /\ fst (calculate_stats steady_clock (map row_of three_tenths) [])
       = Some (Some s2)
    /\ Stats.sum1d s1 = Stats.sum1d s2.
Proof.
  destruct (calculate_stats_windows_local steady_clock steady_clock
              (mkObs (-1) tenth :: three_tenths) three_tenths [] [])
    as (s1 & s2 & E1 & E2 & H & _); try discriminate; [reflexivity|].
  exists s1, s2. split; [exact E1|]. split; [exact E2|].
  apply H. vm_compute. reflexivity.
Defined.

(** ** Order of arrival *)

Lemma sorted_perm_unique {A} (R : A -> A -> Prop) (l1 : list A) :
  forall l2,
    (forall a b, In a l1 -> In b l1 -> R a b -> R b a -> a = b) ->
    StronglySorted R l1 -> StronglySorted R l2 -> Permutation l1 l2 ->
    l1 = l2.
Proof.
  induction l1 as [|x t1 IH]; intros l2 Hanti Hs1 Hs2 Hp.
  - apply Permutation_nil in Hp. now subst.
  - destruct l2 as [|y t2]; [now apply Permutation_sym, Permutation_nil in Hp|].
    apply StronglySorted_inv in Hs1 as [Hs1 Hx].
    apply StronglySorted_inv in Hs2 as [Hs2 Hy].
    rewrite List.Forall_forall in Hx, Hy.
    assert (Hxy : x = y).
    { assert (Hin : In x (y :: t2))
        by (eapply Permutation_in; [exact Hp|now left]).
      assert (Hin' : In y (x :: t1))
        by (eapply Permutation_in; [symmetry; exact Hp|now left]).
      destruct Hin as [<-|Hin]; [reflexivity|].
      destruct Hin' as [->|Hin']; [reflexivity|].
      apply Hanti; [now left|now right|now apply Hx|now apply Hy]. }
    subst y. f_equal. apply Permutation_cons_inv in Hp.
    apply IH; try assumption.
    intros a b Ha Hb. apply Hanti; now right.
Qed.

Lemma distinct_times_inj h a b :
  List.NoDup (map obs_time h) -> In a h -> In b h ->
  obs_time a = obs_time b -> a = b.
Proof.
  induction h as [|x h IH]; intros Hnd Ha Hb E; [destruct Ha|].
  cbn [map] in Hnd. apply List.NoDup_cons_iff in Hnd as [Hx Hnd].
  destruct Ha as [<-|Ha], Hb as [<-|Hb]; try reflexivity.
  - exfalso. apply Hx. rewrite E. now apply in_map.
  - exfalso. apply Hx. rewrite <- E. now apply in_map.
  - now apply IH.
Qed.

Lemma sorted_obs_order_independent h1 h2 :
  Permutation h1 h2 -> List.NoDup (map obs_time h1) ->
  sorted_obs h1 = sorted_obs h2.
Proof.
  intros Hp Hnd.
  apply (sorted_perm_unique by_time_desc).
  - intros a b Ha Hb Hab Hba.
    apply (distinct_times_inj h1); try assumption.
    + eapply Permutation_in; [apply sorted_obs_perm|exact Ha].
    + eapply Permutation_in; [apply sorted_obs_perm|exact Hb].
    + unfold by_time_desc in *. lia.
  - apply sorted_obs_sorted.
  - apply sorted_obs_sorted.
  - rewrite !sorted_obs_perm. exact Hp.
Qed.

(** X10. When the timestamps of a history are all distinct, the order in
    which its observations were fetched does not matter to the current rate,
    the four windowed sums and the count: any rearrangement of the history
    gives the same values under the same reading of the clock. *)
Theorem calculate_stats_order_independent clock1 clock2 h1 h2 w1 w2 :
  h1 <> [] -> Permutation h1 h2 -> List.NoDup (map obs_time h1) ->
  clock1 w1 = clock2 w2 ->
  exists s1 s2,
    fst (calculate_stats clock1 (map row_of h1) w1) = Some (Some s1)
    /\ fst (calculate_stats clock2 (map row_of h2) w2) = Some (Some s2)
    /\ Stats.rate8h s1 = Stats.rate8h s2
    /\ Stats.sum1d s1 = Stats.sum1d s2
    /\ Stats.sum3d s1 = Stats.sum3d s2
    /\ Stats.sum7d s1 = Stats.sum7d s2
    /\ Stats.sum30d s1 = Stats.sum30d s2
    /\ Stats.count s1 = Stats.count s2.
Proof.
  intros H1 Hp Hnd Hnow.
  assert (H2 : h2 <> []).
  { intros ->. apply Permutation_sym, Permutation_nil in Hp. congruence. }
  pose proof (sorted_obs_order_independent h1 h2 Hp Hnd) as Es.
  destruct (calculate_stats_obs_fst clock1 h1 w1 H1)
    as (o1 & t1 & f1 & r1 & _ & Ef1 & E1).
  destruct (calculate_stats_obs_fst clock2 h2 w2 H2)
    as (o2 & t2 & f2 & r2 & _ & Ef2 & E2).
  eexists. eexists. split; [exact E1|]. split; [exact E2|].
  cbn [Stats.rate8h Stats.sum1d Stats.sum3d Stats.sum7d Stats.sum30d
       Stats.count].
  unfold window_sum. rewrite <- Hnow, <- Es.
  rewrite Ef1 in Es. rewrite <- Es in Ef2. injection Ef2 as <- _.
  repeat split. now apply Permutation_length.
Qed.

Lemma calculate_stats_order_independent_example :
  exists s1 s2,
    fst (calculate_stats steady_clock (map row_of three_tenths) [])
    = Some (Some s1)
    /\ fst (calculate_stats steady_clock (map row_of (rev three_tenths)) [])
       = Some (Some s2)
    /\ Stats.rate8h s1 = Stats.rate8h s2.
Proof.
  destruct (calculate_stats_order_independent steady_clock steady_clock
              three_tenths (rev three_tenths) [] [])
    as (s1 & s2 & E1 & E2 & H & _).
  - discriminate.
  - apply Permutation_rev.
  - repeat constructor; cbn; intuition discriminate.
  - reflexivity.
  - exists s1, s2. auto.
Defined.

Lemma insert_asc_perm {A} (x : Z * A) (l : list (Z * A)) :
  Permutation (insert_asc x l) (x :: l).
Proof.
  induction l as [|y ys IH]; simpl; [reflexivity|].
  destruct (fst y <? fst x); [|reflexivity].
  rewrite IH. apply perm_swap.
Qed.

Lemma sort_asc_perm {A} (l : list (Z * A)) : Permutation (sort_asc l) l.
Proof.
  induction l as [|x l IH]; simpl; [reflexivity|].
  rewrite insert_asc_perm. now apply perm_skip.
Qed.

Lemma insert_asc_sorted {A} (x : Z * A) (l : list (Z * A)) :
  StronglySorted asc l -> StronglySorted asc (insert_asc x l).
Proof.
  induction 1 as [|y ys Hs IH Hall]; simpl.
  - repeat constructor.
  - destruct (Z.ltb_spec (fst y) (fst x)) as [Hlt|Hge].
    + constructor; [exact IH|].
      eapply Permutation_Forall; [symmetry; apply insert_asc_perm|].
      constructor; [unfold asc; lia|exact Hall].
    + constructor; [now constructor|].
      constructor; [exact Hge|].
      eapply List.Forall_impl; [|exact Hall].
      unfold asc; intros z Hz; lia.
Qed.

Lemma sort_asc_sorted {A} (l : list (Z * A)) : StronglySorted asc (sort_asc l).
Proof.
  induction l as [|x l IH]; simpl; [constructor|].
  now apply insert_asc_sorted.
Qed.

Lemma insert_asc_map {A B} (f : A -> B) (x : Z * A) (l : list (Z * A)) :
  insert_asc (fst x, f (snd x)) (map (fun p => (fst p, f (snd p))) l)
  = map (fun p => (fst p, f (snd p))) (insert_asc x l).
Proof.
  induction l as [|y ys IH]; simpl; [reflexivity|].
  destruct (fst y <? fst x); simpl; [|reflexivity].
  f_equal. exact IH.
Qed.

Lemma sort_asc_map {A B} (f : A -> B) (l : list (Z * A)) :
  sort_asc (map (fun p => (fst p, f (snd p))) l)
  = map (fun p => (fst p, f (snd p))) (sort_asc l).
Proof.
  induction l as [|x l IH]; simpl; [reflexivity|].
  rewrite IH. apply insert_asc_map.
Qed.

Lemma sorted_asc_obs_perm h : Permutation (sorted_asc_obs h) h.
Proof.
  unfold sorted_asc_obs.
  rewrite sort_asc_perm, map_map. simpl. now rewrite map_id.
Qed.

Lemma sorted_asc_obs_sorted h : StronglySorted by_time_asc (sorted_asc_obs h).
Proof.
  unfold sorted_asc_obs.
  pose proof (sort_asc_sorted (map (fun o => (obs_time o, o)) h)) as Hs.
  assert (Hk : Forall (fun p => fst p = obs_time (snd p))
                 (sort_asc (map (fun o => (obs_time o, o)) h))).
  { eapply Permutation_Forall; [symmetry; apply sort_asc_perm|].
    apply List.Forall_forall. intros p Hp.
    apply in_map_iff in Hp as (o & <- & _). reflexivity. }
  induction Hs as [|p l Hs IH Hall]; simpl; [constructor|].
  apply Forall_cons_1 in Hk as [Hp Hk].
  constructor; [now apply IH|].
  apply List.Forall_forall. intros o Ho.
  apply in_map_iff in Ho as (q & <- & Hq).
  rewrite List.Forall_forall in Hall, Hk.
  specialize (Hall q Hq). specialize (Hk q Hq).
  unfold by_time_asc, asc in *. lia.
Qed.

Lemma py_sorted_asc_obs h :
  py_sorted_asc (map row_of h) = Some (map row_of (sorted_asc_obs h)).
Proof.
  unfold py_sorted_asc, sorted_asc_obs.
  rewrite keys_obs, combine_obs, sort_asc_map, !map_map. reflexivity.
Qed.

Lemma chart_points_obs l :
  chart_points (map row_of l) = Some (map chart_point_of l).
Proof.
  induction l as [|o l IH]; [reflexivity|].
  cbn [map chart_points row_of time fundingRate]. now rewrite IH.
Qed.

Lemma last_500_map {A B} (f : A -> B) l : last_500 (map f l) = map f (last_500 l).
Proof. unfold last_500. now rewrite length_map, skipn_map. Qed.

Lemma sorted_app_inv {A} (R : A -> A -> Prop) l1 l2 :
  StronglySorted R (l1 ++ l2) ->
  StronglySorted R l2 /\ forall a b, In a l1 -> In b l2 -> R a b.
Proof.
  induction l1 as [|x l1 IH]; cbn [app]; intros Hs.
  - split; [exact Hs|intros a b []].
  - apply StronglySorted_inv in Hs as [Hs Hx].
    destruct (IH Hs) as [H2 Hab]. split; [exact H2|].
    intros a b [<-|Ha] Hb; [|now apply Hab].
    rewrite List.Forall_forall in Hx. apply Hx, in_or_app. now right.
Qed.

Lemma chart_series_obs h :
  chart_series (map row_of h)
  = Some (map chart_point_of (last_500 (sorted_asc_obs h))).
Proof.
  unfold chart_series. rewrite py_sorted_asc_obs.
  now rewrite last_500_map, chart_points_obs.
Qed.

(** X11. The chart series of a well-formed history holds its most recent
    observations, at most 500 of them, from the oldest to the newest, each
    rate multiplied by 100: what is left out is no later than what is
    kept. *)
Theorem chart_series_most_recent (h : list observation) :
  exists dropped kept,
    chart_series (map row_of h) = Some (map chart_point_of kept)
    /\ Permutation (dropped ++ kept) h
    /\ length kept = Nat.min 500 (length h)
    /\ StronglySorted by_time_asc kept
    /\ forall d k, In d dropped -> In k kept -> obs_time d <= obs_time k.
Proof.
  set (s := sorted_asc_obs h).
  exists (firstn (length s - 500) s), (last_500 s).
  assert (Hlen : length s = length h)
    by (apply Permutation_length, sorted_asc_obs_perm).
  assert (Hsplit : firstn (length s - 500) s ++ last_500 s = s)
    by apply firstn_skipn.
  pose proof (sorted_asc_obs_sorted h) as Hs. fold s in Hs.
  rewrite <- Hsplit in Hs. apply sorted_app_inv in Hs as [Hk Hdk].
  split; [|split; [|split; [|split]]].
  - apply chart_series_obs.
  - rewrite Hsplit. apply sorted_asc_obs_perm.
  - unfold last_500. rewrite length_skipn. lia.
  - exact Hk.
  - exact Hdk.
Qed.

Lemma keys_well_timed data ks :
  keys data = Some ks -> Forall (fun d => time d <> None) data.
Proof.
  revert ks. induction data as [|d ds IH]; intros ks E; [constructor|].
  cbn [keys] in E. destruct (time d) as [t|] eqn:Ht; [|discriminate].
  destruct (keys ds) as [ts|]; [|discriminate].
  constructor; [congruence|]. now apply (IH ts).
Qed.

Lemma all_rates_well_rated data rs :
  all_rates data = Some rs -> Forall (fun d => fundingRate d <> None) data.
Proof.
  revert rs. induction data as [|d ds IH]; intros rs E; [constructor|].
  cbn [all_rates] in E. destruct (fundingRate d) as [r|] eqn:Hr; [|discriminate].
  destruct (all_rates ds) as [rs'|]; [|discriminate].
  constructor; [congruence|]. now apply (IH rs').
Qed.

Lemma stats_at_Some_well_formed now data s :
  stats_at now data = Some s -> Forall well_formed data.
Proof.
  unfold stats_at, py_sorted_desc. intros E.
  destruct (keys data) as [ks|] eqn:Hk; [|discriminate].
  destruct (all_rates data) as [rs|] eqn:Hr; [|discriminate].
  pose proof (keys_well_timed data ks Hk) as Ht.
  pose proof (all_rates_well_rated data rs Hr) as Hrates.
  rewrite List.Forall_forall in *. intros d Hd. split; auto.
Qed.

Lemma chart_series_well_formed data :
  Forall well_formed data -> chart_series data <> None.
Proof.
  intros Hall. destruct (well_formed_rows data Hall) as (h & ->).
  now rewrite chart_series_obs.
Qed.

Lemma chart_loop_lookup items : forall acc cd,
  List.NoDup (map fst items) ->
  chart_loop items acc = Some cd ->
  forall coin,
    (forall rec, In (coin, rec) items -> rec_history rec <> [] ->
                 cd !! coin = chart_entry rec)
    /\ ((forall rec, In (coin, rec) items -> rec_history rec = []) ->
        cd !! coin = acc !! coin).
Proof.
  induction items as [|[c d] rest IH]; intros acc cd Hnd Hloop coin.
  - cbn in Hloop. injection Hloop as <-. split; [intros rec []|reflexivity].
  - cbn [map fst] in Hnd. apply List.NoDup_cons_iff in Hnd as [Hc Hnd].
    assert (Hfresh : forall rec, ~ In (c, rec) rest).
    { intros rec Hin. apply Hc. change c with (fst (c, rec)). now apply in_map. }
    cbn [chart_loop] in Hloop.
    destruct (rec_history d) as [|x xs] eqn:Hh.
    + destruct (IH acc cd Hnd Hloop coin) as [IH1 IH2]. split.
      * intros rec [E|Hin] Hne; [|now apply IH1].
        injection E as <- <-. congruence.
      * intros Hall. apply IH2. intros rec Hin. apply Hall. now right.
    + destruct (chart_series (x :: xs)) as [pts|] eqn:Hs; [|discriminate].
      destruct (IH (<[c := pts]> acc) cd Hnd Hloop coin) as [IH1 IH2].
      destruct (IH (<[c := pts]> acc) cd Hnd Hloop c) as [_ IHc].
      split.
      * intros rec [E|Hin] Hne; [|now apply IH1].
        injection E as <- <-. unfold chart_entry. rewrite Hh, Hs.
        rewrite IHc; [now rewrite lookup_insert_eq|].
        intros rec Hin. now destruct (Hfresh rec).
      * intros Hall. assert (Hne : c <> coin).
        { intros ->. specialize (Hall d (or_introl eq_refl)). congruence. }
        rewrite IH2; [now rewrite lookup_insert_ne|].
        intros rec Hin. apply Hall. now right.
Qed.

Lemma chart_loop_Some items : forall acc,
  Forall (fun item => rec_history (snd item) = []
                      \/ Forall well_formed (rec_history (snd item))) items ->
  exists cd, chart_loop items acc = Some cd.
Proof.
  induction items as [|[c d] rest IH]; intros acc Hall; [now exists acc|].
  apply Forall_cons_1 in Hall as [Hd Hall]. cbn [snd] in Hd.
  cbn [chart_loop]. destruct (rec_history d) as [|x xs] eqn:Hh; [now apply IH|].
  destruct Hd as [Hd|Hd]; [discriminate|].
  pose proof (chart_series_well_formed _ Hd) as Hs.
  destruct (chart_series (x :: xs)) as [pts|]; [now apply IH|congruence].
Qed.

Lemma chart_data_lookup all_data :
  (forall coin rec, all_data !! coin = Some rec ->
     rec_history rec = [] \/ Forall well_formed (rec_history rec)) ->
  exists cd,
    chart_data all_data = Some cd
    /\ forall coin,
         cd !! coin = match all_data !! coin with
                      | Some rec => chart_entry rec
                      | None => None
                      end.
Proof.
  intros Hall. unfold chart_data.
  destruct (chart_loop_Some (map_to_list all_data) ∅) as (cd & Hcd).
  { apply List.Forall_forall. intros [c d] Hin.
    apply list_elem_of_In, elem_of_map_to_list in Hin. now apply (Hall c). }
  exists cd. split; [exact Hcd|]. intros coin.
  assert (Hnd : List.NoDup (map fst (map_to_list all_data))).
  { apply NoDup_ListNoDup. apply NoDup_fst_map_to_list. }
  destruct (chart_loop_lookup _ _ _ Hnd Hcd coin) as [H1 H2].
  destruct (all_data !! coin) as [rec|] eqn:El.
  - destruct (rec_history rec) as [|x xs] eqn:Hh.
    + unfold chart_entry. rewrite Hh. rewrite H2; [apply lookup_empty|].
      intros rec' Hin. apply list_elem_of_In, elem_of_map_to_list in Hin.
      congruence.
    + apply H1; [|congruence].
      apply list_elem_of_In, elem_of_map_to_list. exact El.
  - rewrite H2; [apply lookup_empty|].
    intros rec' Hin. apply list_elem_of_In, elem_of_map_to_list in Hin.
    congruence.
Qed.

(** X12. On a dataset whose non-empty histories are well formed, the chart
    preparation of [generate_html] does not raise, and it charts exactly the
    symbols with a non-empty history, each with the series of its own
    history. *)
Theorem chart_data_charts_histories (all_data : gmap string symbol_record) :
  (forall coin rec, all_data !! coin = Some rec ->
     rec_history rec = [] \/ Forall well_formed (rec_history rec)) ->
  exists cd,
    chart_data all_data = Some cd
    /\ forall coin,
         cd !! coin = match all_data !! coin with
                      | Some rec => chart_entry rec
                      | None => None
                      end.
Proof. apply chart_data_lookup. Qed.

Lemma chart_data_charts_histories_example :
  exists cd,
    chart_data sample_dataset = Some cd
    /\ cd !! "xyz:GOLD"%string
       = chart_entry (mkRecord (map row_of three_tenths) None no_market).
Proof.
  destruct (chart_data_charts_histories sample_dataset) as (cd & E & H).
  - intros coin rec Hl. unfold sample_dataset in Hl.
    apply lookup_singleton_Some in Hl as [_ <-]. right.
    repeat constructor; discriminate.
  - exists cd. split; [exact E|]. rewrite H. unfold sample_dataset.
    now rewrite lookup_singleton_eq.
Defined.

Lemma record_at_well_formed clock upstream market_data start_time end_time
    coin w :
  let rec := record_at clock upstream market_data start_time end_time coin w in
  (rec_history rec = [] /\ rec_stats rec = None)
  \/ (rec_history rec <> [] /\ Forall well_formed (rec_history rec)
      /\ rec_stats rec <> None).
Proof.
  cbv zeta. unfold record_at, fetch_coin_data. cbn [rec_history rec_stats].
  destruct (fetch_funding_history upstream coin start_time (Some end_time) w)
    as [[|d ds] w1]; [now left|].
  unfold calculate_stats.
  destruct (stats_at (clock w1) (d :: ds)) as [s|] eqn:E; cbn; [|now left].
  right. split; [discriminate|]. split; [|discriminate].
  now apply (stats_at_Some_well_formed (clock w1) _ s).
Qed.

Lemma main_records clock upstream meta_upstream window main_perp w all_data
    coin rec :
  fst (main clock upstream meta_upstream window main_perp w) = Some all_data ->
  all_data !! coin = Some rec ->
  (rec_history rec = [] /\ rec_stats rec = None)
  \/ (rec_history rec <> [] /\ Forall well_formed (rec_history rec)
      /\ rec_stats rec <> None).
Proof.
  unfold main.
  destruct (get_all_perp_assets meta_upstream main_perp w)
    as [[[main_assets hip3_assets] market_data] w1].
  destruct (window w1) as [start_time end_time].
  intros Hm Hl.
  destruct (main_loop_lookup clock upstream market_data start_time end_time
              (main_assets ++ hip3_assets) ∅ (w1 ++ [Now; Now]) all_data coin
              Hm) as [Hin Hout].
  destruct (in_dec (fun x y : name_json => decide (x = y)) (NStr coin)
              (main_assets ++ hip3_assets)) as [H|H].
  - destruct (Hin H) as (wi & E). rewrite E in Hl. injection Hl as <-.
    apply record_at_well_formed.
  - rewrite (Hout H), lookup_empty in Hl. discriminate.
Qed.

(** X13. The dataset [main] hands over, whenever it hands one over, never
    makes the chart preparation of [generate_html] raise, and a symbol gets
    a chart exactly when its record has statistics. *)
Theorem main_output_charts clock upstream meta_upstream window main_perp w
    all_data :
  fst (main clock upstream meta_upstream window main_perp w) = Some all_data ->
  exists cd,
    chart_data all_data = Some cd
    /\ forall coin,
         is_Some (cd !! coin)
         <-> exists rec, all_data !! coin = Some rec /\ rec_stats rec <> None.
Proof.
  intros Hm.
  pose proof (main_records clock upstream meta_upstream window main_perp w
                all_data) as Hrec.
  assert (Hrec' : forall coin rec, all_data !! coin = Some rec ->
            (rec_history rec = [] /\ rec_stats rec = None)
            \/ (rec_history rec <> [] /\ Forall well_formed (rec_history rec)
                /\ rec_stats rec <> None))
    by (intros coin rec; now apply Hrec).
  clear Hrec. rename Hrec' into Hrec.
  destruct (chart_data_lookup all_data) as (cd & E & H).
  { intros coin rec Hl. destruct (Hrec coin rec Hl) as [[? _]|(_ & ? & _)]; auto. }
  exists cd. split; [exact E|]. intros coin. rewrite H.
  destruct (all_data !! coin) as [rec|] eqn:El.
  - destruct (Hrec coin rec El) as [[Hh Hs]|(Hh & Hwf & Hs)].
    + unfold chart_entry. rewrite Hh. split.
      * intros [? ?]. discriminate.
      * intros (rec' & Er & Hn). injection Er as <-. congruence.
    + split; [intros _; now exists rec|]. intros _.
      unfold chart_entry. destruct (rec_history rec) as [|x xs]; [congruence|].
      pose proof (chart_series_well_formed _ Hwf) as Hc.
      destruct (chart_series (x :: xs)); [eauto|congruence].
  - split; [intros [? ?]; discriminate|intros (rec' & Er & _); discriminate].
Qed.

Lemma main_output_charts_example :
  exists all_data cd,
    fst (main steady_clock draining_upstream listed_upstream sample_window
           false [])
    = Some all_data
    /\ chart_data all_data = Some cd.
Proof.
  destruct (fst (main steady_clock draining_upstream listed_upstream
                   sample_window false [])) as [all_data|] eqn:E;
    [|vm_compute in E; discriminate E].
  destruct (main_output_charts steady_clock draining_upstream listed_upstream
              sample_window false [] all_data E) as (cd & Hc & _).
  now exists all_data, cd.
Defined.

Lemma fetch_catalog_world meta_upstream dex w :
  snd (fetch_catalog meta_upstream dex w) = w ++ [Post (MetaAndAssetCtxs dex)].
Proof.
  unfold fetch_catalog.
  destruct (meta_upstream w (MetaAndAssetCtxs dex)) as [|status body];
    [reflexivity|].
  destruct (status =? 200); [|reflexivity].
  now destruct body as [| |[u|] [c|]].
Qed.

(** X14. A catalog answer in which every entry can be read gives one
    symbol per pair of a name and a context, in the order of the universe;
    the symbols of the list are exactly those with a snapshot and, when the
    names are distinct, the snapshot of each symbol is the one of the
    context at its position. *)
Theorem fetch_catalog_well_formed meta_upstream dex w names asset_ctxs snaps :
  meta_upstream w (MetaAndAssetCtxs dex)
  = Http 200 (CPair (Some (map Some names)) (Some asset_ctxs)) ->
  Forall (fun n => n <> NUnhashable) names ->
  map snapshot_of asset_ctxs = map Some snaps ->
  let result := fst (fetch_catalog meta_upstream dex w) in
  fst result = firstn (length asset_ctxs) names
  /\ (forall coin, In coin (fst result) <-> is_Some (snd result !! coin))
  /\ (List.NoDup names ->
      forall i coin snap,
        nth_error names i = Some coin -> nth_error snaps i = Some snap ->
        snd result !! coin = Some snap).
Proof.
  intros Hup Hh Hs. cbv zeta. unfold fetch_catalog. rewrite Hup.
  cbn [Z.eqb Pos.eqb fst].
  rewrite (zip_loop_well_formed names _ snaps _ _ Hh Hs).
  cbn [fst snd app].
  assert (Hlen : length asset_ctxs = length snaps).
  { apply (f_equal (@length _)) in Hs. now rewrite !length_map in Hs. }
  rewrite combine_fst_firstn, Hlen.
  split; [reflexivity|]. split.
  - intros coin. rewrite store_all_is_Some, combine_fst_firstn, lookup_empty.
    split; [now left|]. intros [H|[? H]]; [exact H|discriminate].
  - intros Hnd i coin snap Hn Hsn. apply store_all_lookup.
    + rewrite combine_fst_firstn.
      rewrite <- (firstn_skipn (length snaps) names) in Hnd.
      now apply List.NoDup_app_remove_r in Hnd.
    + clear - Hn Hsn. revert i snaps Hn Hsn.
      induction names as [|x names IH]; intros [|i] [|s snaps] Hn Hsn;
        try discriminate.
      * cbn in *. left. congruence.
      * cbn in *. right. now apply (IH i).
Qed.

Lemma fetch_catalog_well_formed_example :
  fst (fst (fetch_catalog listed_upstream (Some "xyz"%string) []))
  = firstn 2 [NStr "xyz:GOLD"; NStr "xyz:OIL"].
Proof.
  apply (fetch_catalog_well_formed listed_upstream (Some "xyz"%string) []
           [NStr "xyz:GOLD"; NStr "xyz:OIL"] [Some gold_ctx; Some gold_ctx]
           [gold_snapshot; gold_snapshot]);
    [reflexivity|repeat constructor; discriminate|reflexivity].
Defined.

(** X15. [get_all_perp_assets] sends the request of the extended dex in
    every case and the one of the main dex before it only when asked to;
    without the main dex the main list is empty. In the merged mapping the
    snapshot of the extended dex wins where both have the symbol. *)
Theorem get_all_perp_assets_merge meta_upstream main_perp w :
  let res := get_all_perp_assets meta_upstream main_perp w in
  let w1 := if main_perp : bool then w ++ [Post (MetaAndAssetCtxs None)] else w in
  let main_market :=
    if main_perp then snd (fst (fetch_catalog meta_upstream None w)) else ∅ in
  let hip3_market :=
    snd (fst (fetch_catalog meta_upstream (Some "xyz"%string) w1)) in
  snd res = w1 ++ [Post (MetaAndAssetCtxs (Some "xyz"%string))]
  /\ (main_perp = false -> fst (fst (fst res)) = [])
  /\ forall coin,
       snd (fst res) !! coin
       = match hip3_market !! coin with
         | Some m => Some m
         | None => main_market !! coin
         end.
Proof.
  cbv zeta. unfold get_all_perp_assets. destruct main_perp.
  - pose proof (fetch_catalog_world meta_upstream None w) as Hw1.
    destruct (fetch_catalog meta_upstream None w) as [[a m] w1].
    cbn [snd fst] in *. subst w1.
    pose proof (fetch_catalog_world meta_upstream (Some "xyz"%string)
                  (w ++ [Post (MetaAndAssetCtxs None)])) as Hw2.
    destruct (fetch_catalog meta_upstream (Some "xyz"%string)
                (w ++ [Post (MetaAndAssetCtxs None)])) as [[a' m'] w2].
    cbn [snd fst] in *. subst w2.
    split; [reflexivity|]. split; [discriminate|].
    intros coin. rewrite lookup_union. now destruct (m' !! coin), (m !! coin).
  - pose proof (fetch_catalog_world meta_upstream (Some "xyz"%string) w) as Hw2.
    destruct (fetch_catalog meta_upstream (Some "xyz"%string) w)
      as [[a' m'] w2].
    cbn [snd fst] in *. subst w2.
    split; [reflexivity|]. split; [reflexivity|].
    intros coin. rewrite lookup_union, lookup_empty. now destruct (m' !! coin).
Qed.

Lemma get_all_perp_assets_merge_example :
  fst (fst (fst (get_all_perp_assets listed_upstream false []))) = [].
Proof.
  now apply (get_all_perp_assets_merge listed_upstream false []).
Defined.








Section Retry.

Variable upstream : World -> request -> response history_json.
Variable coin : string.
Variable end_time : option Z.

Lemma try_page_fails f all_data c retry w :
  answers f (upstream w (payload coin c end_time)) ->
  try_page upstream coin end_time all_data c retry w
  = (match f with Busy => Continue | Lost => Except all_data end,
     w ++ Post (payload coin c end_time)
       :: match f with
          | Busy => [Sleep (inject_Z ((retry + 1) * 2))]
          | Lost => []
          end).
Proof.
  unfold try_page. destruct f; cbn [answers].
  - intros (b & ->). cbn [Z.eqb Pos.eqb]. now rewrite <- app_assoc.
  - now intros [-> | ->].
Qed.

Lemma retry_loop_fails_thrice f0 f1 f2 all_data c w :
  fails_thrice upstream coin end_time f0 f1 f2 c w ->
  let p := payload coin c end_time in
  retry_loop upstream coin end_time (range max_retries) all_data c w
  = (Returned all_data,
     w ++ Post p :: pause_after 0 f0
       ++ Post p :: pause_after 1 f1
       ++ Post p :: pause_after 2 f2).
Proof.
  intros (H0 & H1 & H2) p. fold p in H0, H1, H2.
  change (range max_retries) with [0; 1; 2].
  cbn [retry_loop].
  rewrite (try_page_fails f0 all_data c 0 w H0). fold p.
  destruct f0; cbn [pause_after Z.eqb] in *;
    cbn [Z.eqb Z.of_nat max_retries Z.sub];
    rewrite <- ?app_assoc; cbn [app];
    match goal with
    | |- context [try_page _ _ _ _ _ 1 ?w'] =>
        rewrite (try_page_fails f1 all_data c 1 w' H1)
    end; fold p;
    destruct f1; cbn [pause_after Z.eqb Pos.eqb] in *;
    cbn [Z.eqb Pos.eqb Z.of_nat max_retries Z.sub];
    rewrite <- ?app_assoc in *; cbn [app] in *;
    match goal with
    | |- context [try_page _ _ _ _ _ 2 ?w'] =>
        rewrite (try_page_fails f2 all_data c 2 w' H2)
    end; fold p;
    destruct f2; cbn [pause_after Z.eqb Pos.eqb];
    rewrite <- ?app_assoc; reflexivity.
Qed.

End Retry.

(** X18. The three attempts on a page are one budget for rate limiting and
    for exceptions alike: when all three fail, in any mix of status 429 and
    of raising attempts, the pages read so far are returned unchanged. A
    429 is followed by a pause of 2, 4 or 6 seconds by its rank, a raising
    attempt by 1 second, except the last one, which returns at once. *)
Theorem fetch_three_failures upstream coin start_time end_time pages
    f0 f1 f2 w :
  (length pages < 20)%nat ->
  serves upstream coin end_time pages
    (fails_thrice upstream coin end_time f0 f1 f2) start_time w ->
  let p := payload coin (cursor_after start_time pages) end_time in
  fetch_funding_history upstream coin start_time end_time w
  = (concat pages,
     (w ++ map Post (page_requests coin end_time start_time pages))
     ++ Post p :: pause_after 0 f0
     ++ Post p :: pause_after 1 f1
     ++ Post p :: pause_after 2 f2).
Proof.
  intros Hlen Hs p.
  destruct (fetch_after_pages_requests _ _ _ _ _ _ _ Hlen Hs)
    as (i & rest & HK & ->).
  cbn [page_loop].
  now rewrite (retry_loop_fails_thrice _ _ _ _ _ _ _ _ _ HK).
Qed.

Lemma fetch_three_failures_example :
  fetch_funding_history patchy_upstream "xyz:GOLD" 0 (Some 1000) []
  = (concat [sample_page 0],
     ([] ++ map Post (page_requests "xyz:GOLD" (Some 1000) 0 [sample_page 0]))
     ++ Post (payload "xyz:GOLD" (cursor_after 0 [sample_page 0]) (Some 1000))
        :: pause_after 0 Lost
     ++ Post (payload "xyz:GOLD" (cursor_after 0 [sample_page 0]) (Some 1000))
        :: pause_after 1 Busy
     ++ Post (payload "xyz:GOLD" (cursor_after 0 [sample_page 0]) (Some 1000))
        :: pause_after 2 Lost).
Proof.
  apply (fetch_three_failures patchy_upstream "xyz:GOLD" 0 (Some 1000)
           [sample_page 0] Lost Busy Lost []); [cbn; lia|].
  cbn [serves]. split; [reflexivity|]. split; [reflexivity|].
  rewrite max_time_sample_page_0.
  split; [now left|]. split; [now exists HNotJson|now right].
Defined.

(** ** Ties on the latest timestamp *)

Lemma sort_desc_head_first {A} (l : list (Z * A)) : forall f r,
  sort_desc l = f :: r ->
  exists l1 l2,
    l = l1 ++ f :: l2
    /\ Forall (fun y => fst y < fst f) l1
    /\ Forall (fun y => fst y <= fst f) l2.
Proof.
  induction l as [|x l IH]; intros f r E; [discriminate E|].
  cbn [sort_desc fold_right] in E. fold (sort_desc l) in E.
  destruct (sort_desc l) as [|f' r'] eqn:Es.
  - assert (l = []) as ->.
    { pose proof (sort_desc_perm l) as Hp. rewrite Es in Hp.
      now apply Permutation_nil in Hp. }
    cbn in E. injection E as <- <-.
    exists [], []. repeat split; constructor.
  - destruct (IH f' r' eq_refl) as (l1 & l2 & -> & H1 & H2).
    cbn [insert_desc] in E.
    destruct (Z.ltb_spec (fst x) (fst f')) as [Hlt|Hge].
    + injection E as <- _. exists (x :: l1), l2.
      repeat split; [now constructor|exact H2].
    + injection E as <- _. exists [], (l1 ++ f' :: l2).
      repeat split; [constructor|].
      apply Forall_app. split.
      * eapply List.Forall_impl; [|exact H1]. cbn. intros; lia.
      * constructor; [exact Hge|].
        eapply List.Forall_impl; [|exact H2]. cbn. intros; lia.
Qed.

Lemma sorted_obs_head_first h first rest :
  sorted_obs h = first :: rest ->
  exists h1 h2,
    h = h1 ++ first :: h2
    /\ Forall (fun o => obs_time o < obs_time first) h1
    /\ Forall (fun o => obs_time o <= obs_time first) h2.
Proof.
  unfold sorted_obs. intros E.
  destruct (sort_desc (map (fun o => (obs_time o, o)) h)) as [|f r] eqn:Es;
    [discriminate E|].
  cbn [map] in E. injection E as Ef _.
  destruct (sort_desc_head_first _ f r Es) as (l1 & l2 & El & H1 & H2).
  apply map_eq_app in El as (h1 & h2' & -> & E1 & E2).
  apply map_eq_cons in E2 as (o & h2 & -> & Eo & E2).
  subst f l1 l2. cbn [snd fst] in *. subst o.
  exists h1, h2. split; [reflexivity|].
  split; apply List.Forall_forall; intros o Ho.
  - rewrite List.Forall_forall in H1.
    apply (H1 (obs_time o, o)). now apply (in_map (fun o => (obs_time o, o))).
  - rewrite List.Forall_forall in H2.
    apply (H2 (obs_time o, o)). now apply (in_map (fun o => (obs_time o, o))).
Qed.

(** X17. When several observations carry the latest timestamp, the current
    rate is the rate of the one that was fetched first: every observation
    before it in the history is strictly older, none after it is more
    recent. *)
Theorem calculate_stats_tie_break clock (h : list observation) w :
  h <> [] ->
  exists s first h1 h2,
    fst (calculate_stats clock (map row_of h) w) = Some (Some s)
    /\ h = h1 ++ first :: h2
    /\ Stats.rate8h s = obs_rate first
    /\ Forall (fun o => obs_time o < obs_time first) h1
    /\ Forall (fun o => obs_time o <= obs_time first) h2.
Proof.
  intros Hne.
  destruct (calculate_stats_obs_fst clock h w Hne)
    as (o & h' & first & rest & _ & Es & E).
  destruct (sorted_obs_head_first h first rest Es) as (h1 & h2 & Eh & H1 & H2).
  eexists. exists first, h1, h2. split; [exact E|]. now cbn [Stats.rate8h].
Qed.

Lemma calculate_stats_tie_break_example :
  exists s,
    fst (calculate_stats steady_clock (map row_of tied) []) = Some (Some s)
    /\ Stats.rate8h s = (tenth + tenth)%float.
Proof.
  destruct (calculate_stats_tie_break steady_clock tied [])
    as (s & first & h1 & h2 & E & Eh & Er & H1 & H2); [discriminate|].
  exists s. split; [exact E|]. rewrite Er.
  unfold tied in Eh.
  destruct h1 as [|a [|b [|c h1]]]; cbn in Eh.
  - injection Eh as <- <-. exfalso.
    apply Forall_cons_1 in H2 as [H2 _]. cbn in H2. lia.
  - injection Eh as <- <- _. reflexivity.
  - injection Eh as <- <- <- _. exfalso.
    apply Forall_cons_1 in H1 as [_ H1]. apply Forall_cons_1 in H1 as [H1 _].
    cbn in H1. lia.
  - injection Eh as _ _ _ Eh. now destruct h1.
Defined.

(** ** The size of a fetch *)

Lemma max_time_from_timed data : forall m,
  Forall (fun d => time d <> None) data -> max_time_from m data <> None.
Proof.
  induction data as [|d ds IH]; intros m Hall; [discriminate|].
  apply Forall_cons_1 in Hall as [Hd Hall]. cbn [max_time_from].
  destruct (time d) as [t|]; [now apply IH|congruence].
Qed.

Lemma max_time_timed d ds :
  Forall (fun d => time d <> None) (d :: ds) -> max_time (d :: ds) <> None.
Proof.
  intros Hall. apply Forall_cons_1 in Hall as [Hd Hall]. cbn [max_time].
  destruct (time d) as [t|]; [now apply max_time_from_timed|congruence].
Qed.

Section Growth.

Variable upstream : World -> request -> response history_json.
Variable coin : string.
Variable end_time : option Z.
Hypothesis Hcap : capped upstream.

Lemma try_page_growth all_data c retry w :
  match fst (try_page upstream coin end_time all_data c retry w) with
  | Continue => True
  | Except r => r = all_data
  | Return r | Break r _ => (length r <= length all_data + 500)%nat
  end.
Proof using Hcap.
  unfold try_page.
  destruct (upstream w (payload coin c end_time)) as [|status body] eqn:Hup;
    [reflexivity|].
  destruct (status =? 429); [exact I|].
  destruct (Z.eqb_spec status 200) as [->|_]; cbn [negb fst]; [|lia].
  destruct body as [|t|[|d ds]]; cbn [fst]; try reflexivity; try lia.
  destruct (Hcap _ _ _ Hup) as [Hlen Htimed].
  pose proof (max_time_timed d ds Htimed) as Hmax.
  destruct (length (d :: ds) <? 500)%nat; cbn [fst].
  - rewrite length_app. lia.
  - destruct (max_time (d :: ds)); cbn [fst]; [|congruence].
    rewrite length_app. lia.
Qed.

Lemma retry_loop_growth retries : forall all_data c w,
  (length (page_data (fst (retry_loop upstream coin end_time retries
                             all_data c w)))
   <= length all_data + 500)%nat.
Proof using Hcap.
  induction retries as [|retry rest IH]; intros all_data c w; [cbn; lia|].
  cbn [retry_loop].
  pose proof (try_page_growth all_data c retry w) as Hg.
  destruct (try_page upstream coin end_time all_data c retry w) as [a w'].
  cbn [fst] in Hg. destruct a as [|r|r c'|r]; cbn [fst page_data].
  - apply IH.
  - exact Hg.
  - exact Hg.
  - subst r. destruct (retry =? Z.of_nat max_retries - 1); [cbn; lia|apply IH].
Qed.

Lemma page_loop_growth iterations : forall all_data c w,
  (length (fst (page_loop upstream coin end_time iterations all_data c w))
   <= length all_data + 500 * length iterations)%nat.
Proof using Hcap.
  induction iterations as [|i rest IH]; intros all_data c w; [cbn; lia|].
  cbn [page_loop length].
  pose proof (retry_loop_growth (range max_retries) all_data c w) as Hg.
  destruct (retry_loop upstream coin end_time (range max_retries) all_data c w)
    as [[r|a c'] w']; cbn [fst page_data] in *; [lia|].
  specialize (IH a c' w'). lia.
Qed.

End Growth.

(** X19. When the endpoint keeps to its page size (no list of more than
    500 rows, every row with a readable time), a fetch returns at most
    10000 rows. *)
Theorem fetch_at_most_10000_rows upstream coin start_time end_time w :
  capped upstream ->
  (length (fst (fetch_funding_history upstream coin start_time end_time w))
   <= 500 * 20)%nat.
Proof.
  intros Hcap. unfold fetch_funding_history.
  pose proof (page_loop_growth upstream coin end_time Hcap
                (range max_iterations) [] start_time w) as H.
  assert (Hr : length (range max_iterations) = 20%nat)
    by (unfold range; now rewrite length_map, length_seq).
  rewrite Hr in H. exact H.
Qed.

Lemma sample_page_capped from :
  (length (sample_page from) <= 500)%nat
  /\ Forall (fun d => time d <> None) (sample_page from).
Proof.
  unfold sample_page. rewrite length_map, length_seq. split; [lia|].
  apply List.Forall_forall. intros d Hd.
  apply in_map_iff in Hd as (i & <- & _). discriminate.
Qed.

Lemma fetch_at_most_10000_rows_example :
  let fetched :=
    fetch_funding_history endless_upstream "xyz:GOLD" 0 (Some 1000) [] in
  (length (fst fetched) <= 500 * 20)%nat.
Proof.
  cbv zeta. apply fetch_at_most_10000_rows.
  intros w r data Hup. unfold endless_upstream in Hup.
  destruct r as [dex|c s e]; [discriminate Hup|].
  injection Hup as <-. apply sample_page_capped.
Defined.

(** ** The cursor moves forward *)

Lemma max_time_from_ge data : forall m m',
  max_time_from m data = Some m' -> m <= m'.
Proof.
  induction data as [|d ds IH]; intros m m' E; cbn [max_time_from] in E.
  - injection E as <-. lia.
  - destruct (time d) as [t|]; [|discriminate].
    apply IH in E. destruct (Z.ltb_spec m t); lia.
Qed.

Lemma max_time_reached c p m :
  Forall (fun d => forall t, time d = Some t -> c <= t) p ->
  max_time p = Some m -> c <= m.
Proof.
  intros Hall E. destruct p as [|d ds]; [discriminate E|].
  cbn [max_time] in E. destruct (time d) as [t|] eqn:Ht; [|discriminate].
  apply Forall_cons_1 in Hall as [Hd _]. specialize (Hd t Ht).
  apply max_time_from_ge in E. lia.
Qed.

Lemma page_requests_from coin end_time pages : forall c,
  honoured c pages ->
  Forall (fun s => c <= s)
         (map start_of (page_requests coin end_time c pages)
          ++ [cursor_after c pages]).
Proof.
  induction pages as [|p ps IH]; intros c Hh.
  - cbn. constructor; [lia|constructor].
  - cbn [honoured] in Hh. destruct Hh as [Hp Hh].
    cbn [page_requests cursor_after map app start_of payload].
    constructor; [lia|].
    destruct (max_time p) as [m|] eqn:Em.
    + pose proof (max_time_reached c p m Hp Em) as Hm.
      eapply List.Forall_impl; [|exact (IH (m + 1) Hh)]. cbn. intros; lia.
    + cbn. constructor; [lia|constructor].
Qed.

Lemma page_requests_increase coin end_time pages : forall c,
  honoured c pages ->
  (forall p, In p pages -> max_time p <> None) ->
  StronglySorted Z.lt
    (map start_of (page_requests coin end_time c pages)
     ++ [cursor_after c pages]).
Proof.
  induction pages as [|p ps IH]; intros c Hh Hmax.
  - cbn. repeat constructor.
  - cbn [honoured] in Hh. destruct Hh as [Hp Hh].
    cbn [page_requests cursor_after map app start_of payload].
    destruct (max_time p) as [m|] eqn:Em;
      [|now destruct (Hmax p (or_introl eq_refl))].
    pose proof (max_time_reached c p m Hp Em) as Hm.
    constructor; [apply IH; [exact Hh|intros q Hq; apply Hmax; now right]|].
    eapply List.Forall_impl; [|exact (page_requests_from coin end_time ps _ Hh)].
    cbn. intros; lia.
Qed.

Lemma serves_max_time upstream coin end_time pages : forall K c w,
  serves upstream coin end_time pages K c w ->
  forall p, In p pages -> max_time p <> None.
Proof.
  induction pages as [|q qs IH]; intros K c w Hs p Hp; [destruct Hp|].
  cbn [serves] in Hs. destruct Hs as (_ & _ & Hs).
  destruct (max_time q) as [m|] eqn:Em; [|contradiction].
  destruct Hp as [<-|Hp]; [congruence|]. eapply IH; eauto.
Qed.

(** X20. The cursor only moves forward: when the endpoint serves full
    pages none of whose rows is older than the [startTime] asked for, the
    requests of the fetch start at strictly increasing times, and the cursor
    after the last page is later than all of them, so that no time is asked
    for twice. *)
Theorem fetch_cursor_moves_forward upstream coin start_time end_time pages K w :
  (length pages <= 20)%nat ->
  serves upstream coin end_time pages K start_time w ->
  honoured start_time pages ->
  let reqs := page_requests coin end_time start_time pages in
  (exists tr,
     snd (fetch_funding_history upstream coin start_time end_time w)
     = (w ++ map Post reqs) ++ tr)
  /\ StronglySorted Z.lt
       (map start_of reqs ++ [cursor_after start_time pages]).
Proof.
  intros Hlen Hs Hh reqs. subst reqs. split.
  - unfold fetch_funding_history.
    assert (Hr : length (range max_iterations) = 20%nat)
      by (unfold range; now rewrite length_map, length_seq).
    destruct (page_loop_serves_requests upstream coin end_time pages K
                (range max_iterations) [] start_time w) as (_ & ->);
      [lia|exact Hs|].
    destruct (page_loop_events upstream coin end_time
                (skipn (length pages) (range max_iterations))
                ([] ++ concat pages) (cursor_after start_time pages)
                (w ++ map Post (page_requests coin end_time start_time pages)))
      as (tr & -> & _).
    now exists tr.
  - apply page_requests_increase; [exact Hh|].
    eapply serves_max_time. exact Hs.
Qed.

Lemma fetch_cursor_moves_forward_example :
  StronglySorted Z.lt
    (map start_of (page_requests "xyz:GOLD" (Some 1000) 0 [sample_page 0])
     ++ [cursor_after 0 [sample_page 0]]).
Proof.
  apply (fetch_cursor_moves_forward draining_upstream "xyz:GOLD" 0 (Some 1000)
           [sample_page 0]
           (last_page draining_upstream "xyz:GOLD" (Some 1000) short_page) []).
  - cbn; lia.
  - cbn [serves]. split; [reflexivity|]. split; [reflexivity|].
    rewrite max_time_sample_page_0. split; [reflexivity|cbn; lia].
  - cbn [honoured]. rewrite max_time_sample_page_0. split; [|exact I].
    unfold sample_page. apply List.Forall_forall. intros d Hd.
    apply in_map_iff in Hd as (i & <- & _). cbn. intros t E.
    injection E as <-. lia.
Defined.

(** ** The budget of a run *)

Lemma fetch_coin_data_budget clock upstream coin start_time end_time w :
  exists tr,
    snd (fetch_coin_data clock upstream coin start_time end_time w) = w ++ tr
    /\ (slept tr <= 126)%Q
    /\ (length (posts_of tr) <= 60)%nat.
Proof.
  unfold fetch_coin_data, fetch_funding_history.
  destruct (page_loop_slept upstream coin (Some end_time)
              (range max_iterations) [] start_time w) as (tr & Hw & Hs).
  destruct (page_loop_posts upstream coin (Some end_time)
              (range max_iterations) [] start_time w)
    as (tr' & groups & Hw' & Hp & Hlen & Hall).
  rewrite Hw in Hw'. apply app_inv_head in Hw'. subst tr'.
  assert (Hr : length (range max_iterations) = 20%nat)
    by (unfold range; now rewrite length_map, length_seq).
  assert (Hb : (sleep_budget (length (range max_iterations)) == 126)%Q)
    by reflexivity.
  assert (Hposts : (length (posts_of tr) <= 60)%nat).
  { rewrite Hp. pose proof (concat_page_fetch_length groups Hall) as Hc.
    unfold max_retries in Hc. lia. }
  destruct (page_loop upstream coin (Some end_time) (range max_iterations) []
              start_time w) as [[|d ds] w1]; cbn [snd] in Hw; subst w1.
  - exists tr. split; [reflexivity|]. split; [lra|exact Hposts].
  - unfold calculate_stats. exists (tr ++ [Now]). rewrite app_assoc.
    split; [now destruct (stats_at (clock (w ++ tr)) (d :: ds))|].
    rewrite slept_app, posts_of_app, length_app. cbn [slept posts_of length].
    split; [lra|lia].
Qed.

Lemma main_loop_budget clock upstream market_data start_time end_time
    all_assets : forall all_data w,
  exists tr,
    snd (main_loop clock upstream all_assets market_data start_time end_time
           all_data w) = w ++ tr
    /\ (slept tr <= (1263 # 10) * inject_Z (Z.of_nat (length all_assets)))%Q
    /\ (length (posts_of tr) <= 60 * length all_assets)%nat.
Proof.
  induction all_assets as [|n rest IH]; intros all_data w.
  - exists []. cbn [main_loop snd]. rewrite app_nil_r.
    split; [reflexivity|]. split; [unfold Qle; cbn; lia|cbn; lia].
  - destruct n as [coin|k|]; cbn [main_loop].
    2,3: exists []; cbn [snd]; rewrite app_nil_r;
         (split; [reflexivity|]); (split; [unfold Qle; cbn; lia|cbn; lia]).
    destruct (fetch_coin_data_budget clock upstream coin start_time end_time w)
      as (tr & Hw & Hs & Hp).
    destruct (fetch_coin_data clock upstream coin start_time end_time w)
      as [[coin_key data] w1]. cbn [snd] in Hw. subst w1.
    match goal with
    | |- context [main_loop _ _ rest _ _ _ ?m ?w'] =>
        destruct (IH m w') as (tr2 & -> & Hs2 & Hp2)
    end.
    exists (tr ++ [Sleep (3 # 10)] ++ tr2). rewrite <- !app_assoc.
    split; [reflexivity|]. split.
    + rewrite !slept_app. cbn [slept length].
      rewrite Nat2Z.inj_succ, <- Z.add_1_r, inject_Z_plus.
      change (inject_Z 1) with 1%Q. lra.
    + rewrite !posts_of_app, !length_app. cbn [posts_of length]. lia.
Qed.

(** X21. A run is bounded by the size of the catalog: after the catalog
    is fetched, [main] sends at most 60 requests and sleeps at most 126.3
    seconds per symbol of the catalog list. *)
Theorem main_budget clock upstream meta_upstream window main_perp w :
  let catalog := get_all_perp_assets meta_upstream main_perp w in
  let all_assets := fst (fst (fst catalog)) ++ snd (fst (fst catalog)) in
  exists tr,
    snd (main clock upstream meta_upstream window main_perp w)
    = (snd catalog ++ [Now; Now]) ++ tr
    /\ (slept tr <= (1263 # 10) * inject_Z (Z.of_nat (length all_assets)))%Q
    /\ (length (posts_of tr) <= 60 * length all_assets)%nat.
Proof.
  cbv zeta. unfold main.
  destruct (get_all_perp_assets meta_upstream main_perp w)
    as [[[main_assets hip3_assets] market_data] w1]. cbn [fst snd].
  destruct (window w1) as [start_time end_time].
  apply main_loop_budget.
Qed.
